(** * BackgroundImage: the viewport fit and the image life cycle

    A shallow embedding of
    [packages/react/src/components/BackgroundImage/index.tsx].

    The component is glue between three collaborators: the shared store,
    the fabric canvas object and the image loader.  The embedding keeps a
    small state for each of them (only what the component reads or
    assigns) and a trace of the calls the component makes on them, in
    program order.  JavaScript numbers are binary64 floats. *)

From Stdlib Require Import Floats.
From stdpp Require Import base list strings.

(** ** JavaScript numbers *)

Module JS.

(** [ToBoolean] on a number: false for [+0], [-0] and [NaN]. *)
Definition truthy (x : float) : bool :=
  negb (PrimFloat.is_zero x || PrimFloat.is_nan x).

(** [Math.min] on two arguments: [NaN] when one of them is, and [-0]
    below [+0]. *)
Definition Math_min (x y : float) : float :=
  if PrimFloat.is_nan x || PrimFloat.is_nan y then PrimFloat.nan
  else if (x <? y)%float then x
  else if (y <? x)%float then y
  else match PrimFloat.classify x with NZero => x | _ => y end.

(** [Math.max] on two arguments: [NaN] when one of them is, and [+0]
    above [-0]. *)
Definition Math_max (x y : float) : float :=
  if PrimFloat.is_nan x || PrimFloat.is_nan y then PrimFloat.nan
  else if (x <? y)%float then y
  else if (y <? x)%float then x
  else match PrimFloat.classify x with PZero => x | _ => y end.

(** [Object.is] on numbers, the comparison React uses on dependencies. *)
Definition same (x y : float) : bool := PrimFloat.Leibniz.eqb x y.

End JS.

(** ** Data *)

(** A property value passed through [options]. *)
Inductive value : Type :=
  | VNum (x : float)
  | VStr (s : string)
  | VBool (b : bool).

(** [TMat2D]: the six entries of an affine transform. *)
Record TMat2D : Type := Mat
  { m_a : float; m_b : float; m_c : float; m_d : float;
    m_e : float; m_f : float }.

(** The visual state of a fabric object, as far as the component reads
    it, and a bag for every other property. *)
Record ObjectProps : Type := mkObjectProps
  { op_left : float; op_top : float;
    op_width : float; op_height : float;
    op_scaleX : float; op_scaleY : float;
    op_angle : float;
    op_objectCaching : bool;
    op_other : list (string * value) }.

(** A [FabricImage]: the URL its element was decoded from, and its
    visual state. *)
Record FabricImage : Type := mkImage
  { img_src : string; img_props : ObjectProps }.

(** The drawing library's two mutators of an object, [set(key, value)]
    and [rotate(angle)].  Their bodies belong to fabric; the component
    only chooses which one to call, so they stay an interface. *)
Class FabricObject : Type :=
  { obj_set : string -> value -> ObjectProps -> ObjectProps;
    obj_rotate : value -> ObjectProps -> ObjectProps }.

(** The canvas object: what the component reads and assigns.  Images are
    held by reference (an index into the heap of the world below). *)
Record Canvas : Type := mkCanvas
  { cv_width : float; cv_height : float;
    cv_backgroundImage : option nat;
    cv_viewportTransform : option TMat2D;
    cv_objects : list nat;
    cv_element : bool;
    cv_imageSmoothingEnabled : bool;
    cv_imageSmoothingQuality : string }.

(** Modelled from the spec: the store's state type [ReactFabricState]
    ([types/store] is not among the sources); the fields are the ones the
    specification lists as consumed ([width], [height], [canvas],
    [manualZoom], [defaultCentered], [domNode]) and produced ([fitZoom],
    [manualZoom], [zoom], [loading]).  [manualZoom] may be absent. *)
Record ReactFabricState : Type := mkState
  { st_width : float; st_height : float;
    st_canvas : option Canvas;
    st_manualZoom : option float;
    st_defaultCentered : bool;
    st_domNode : bool;
    st_loading : bool;
    st_fitZoom : float;
    st_zoom : float }.

(** One call made by the component on a collaborator. *)
Inductive Call : Type :=
  | store_setLoading (b : bool)
  | store_setState (fitZoom manualZoom zoom : float)
  | FabricImage_fromURL (url : string)
  | image_set_object (r : nat) (entries : list (string * value))
  | image_set (r : nat) (key : string) (v : value)
  | image_rotate (r : nat) (v : value)
  | context_smoothing
  | canvas_assign_backgroundImage (r : nat)
  | canvas_setViewportTransform (m : TMat2D)
  | canvas_requestRenderAll
  | canvas_renderAll
  | canvas_remove (r : nat)
  | props_onLoad (r : nat)
  | domNode_dataset_src (url : string).

(** The world one component instance lives in: the store, the heap of
    image objects, the component's [backgroundImageRef], and the calls
    made so far. *)
Record World : Type := mkWorld
  { store : ReactFabricState;
    heap : list FabricImage;
    backgroundImageRef : option nat;
    trace : list Call }.

(** The two scale flags handed to [updateViewport]; an absent flag is
    falsy. *)
Record Params : Type := mkParams
  { scaleToFit : bool; scaleToCover : bool }.

(** ** Field updates *)

Definition cv_with_viewportTransform (m : TMat2D) (c : Canvas) : Canvas :=
  mkCanvas (cv_width c) (cv_height c) (cv_backgroundImage c) (Some m)
           (cv_objects c) (cv_element c)
           (cv_imageSmoothingEnabled c) (cv_imageSmoothingQuality c).

Definition cv_with_backgroundImage (r : nat) (c : Canvas) : Canvas :=
  mkCanvas (cv_width c) (cv_height c) (Some r) (cv_viewportTransform c)
           (cv_objects c) (cv_element c)
           (cv_imageSmoothingEnabled c) (cv_imageSmoothingQuality c).

Definition cv_with_smoothing (c : Canvas) : Canvas :=
  mkCanvas (cv_width c) (cv_height c) (cv_backgroundImage c)
           (cv_viewportTransform c) (cv_objects c) (cv_element c)
           true "high".

Definition cv_with_objects (l : list nat) (c : Canvas) : Canvas :=
  mkCanvas (cv_width c) (cv_height c) (cv_backgroundImage c)
           (cv_viewportTransform c) l (cv_element c)
           (cv_imageSmoothingEnabled c) (cv_imageSmoothingQuality c).

Definition st_with_canvas (oc : option Canvas) (s : ReactFabricState)
  : ReactFabricState :=
  mkState (st_width s) (st_height s) oc (st_manualZoom s)
          (st_defaultCentered s) (st_domNode s) (st_loading s)
          (st_fitZoom s) (st_zoom s).

Definition st_with_loading (b : bool) (s : ReactFabricState)
  : ReactFabricState :=
  mkState (st_width s) (st_height s) (st_canvas s) (st_manualZoom s)
          (st_defaultCentered s) (st_domNode s) b
          (st_fitZoom s) (st_zoom s).

Definition st_with_zooms (fitZoom manualZoom zoom : float)
  (s : ReactFabricState) : ReactFabricState :=
  mkState (st_width s) (st_height s) (st_canvas s) (Some manualZoom)
          (st_defaultCentered s) (st_domNode s) (st_loading s)
          fitZoom zoom.

Definition with_store (s : ReactFabricState) (w : World) : World :=
  mkWorld s (heap w) (backgroundImageRef w) (trace w).

Definition with_heap (h : list FabricImage) (w : World) : World :=
  mkWorld (store w) h (backgroundImageRef w) (trace w).

Definition with_ref (r : option nat) (w : World) : World :=
  mkWorld (store w) (heap w) r (trace w).

(** Record one call at the end of the trace. *)
Definition emit (c : Call) (w : World) : World :=
  mkWorld (store w) (heap w) (backgroundImageRef w) (trace w ++ [c]).

(** Mutate the canvas object the store points to. *)
Definition on_canvas (f : Canvas -> Canvas) (w : World) : World :=
  with_store (st_with_canvas (f <$> st_canvas (store w)) (store w)) w.

(** ** The collaborators' operations *)

(** [canvas.setViewportTransform(vpt)]: fabric assigns the matrix to
    [viewportTransform]. *)
Definition setViewportTransform (m : TMat2D) (w : World) : World :=
  emit (canvas_setViewportTransform m)
       (on_canvas (cv_with_viewportTransform m) w).

Definition requestRenderAll (w : World) : World :=
  emit canvas_requestRenderAll w.

Definition renderAll (w : World) : World := emit canvas_renderAll w.

(** [canvas.remove(object)]: fabric splices the object out of the
    canvas's collection of objects; [backgroundImage] is a property of
    its own, which [remove] does not touch. *)
Definition remove (r : nat) (w : World) : World :=
  emit (canvas_remove r)
       (on_canvas (fun c =>
          cv_with_objects (filter (fun x => x ≠ r) (cv_objects c)) c) w).

(** [store.setState({fitZoom, manualZoom, zoom})]. *)
Definition setState (fitZoom manualZoom zoom : float) (w : World) : World :=
  emit (store_setState fitZoom manualZoom zoom)
       (with_store (st_with_zooms fitZoom manualZoom zoom (store w)) w).

(** Modelled from the spec: the store action [setLoading] (the store is
    not among the sources): it writes the shared loading flag. *)
Definition setLoading (b : bool) (w : World) : World :=
  emit (store_setLoading b) (with_store (st_with_loading b (store w)) w).

(** Modelled from the spec: fabric's [util.findScaleToFit(source,
    destination)], which is not among the sources: the largest uniform
    scale at which the source fits inside the destination,
    min(destination.width / source.width,
        destination.height / source.height). *)
Definition findScaleToFit (source : FabricImage) (destination : Canvas)
  : float :=
  JS.Math_min (cv_width destination / op_width (img_props source))%float
              (cv_height destination / op_height (img_props source))%float.

(** Modelled from the spec: fabric's [util.findScaleToCover(source,
    destination)], which is not among the sources: the smallest uniform
    scale at which the source covers the destination,
    max(destination.width / source.width,
        destination.height / source.height). *)
Definition findScaleToCover (source : FabricImage) (destination : Canvas)
  : float :=
  JS.Math_max (cv_width destination / op_width (img_props source))%float
              (cv_height destination / op_height (img_props source))%float.

(** ** [updateViewport] *)

(** The zoom derived from the scale flags alone. *)
Definition fitZoom_of (params : Params) (img : FabricImage) (canvas : Canvas)
  : float :=
  if scaleToFit params then findScaleToFit img canvas
  else if scaleToCover params then findScaleToCover img canvas
  else 1%float.

(** The translation of step 3: zero unless [defaultCentered] holds and
    the canvas has a background image. *)
Definition centering (defaultCentered : bool) (canvas : Canvas)
  (bg : option FabricImage) (combinedZoom : float) : float * float :=
  match defaultCentered, bg with
  | true, Some b =>
      let canvasCenter_x := (cv_width canvas / 2)%float in
      let canvasCenter_y := (cv_height canvas / 2)%float in
      let bgCenter_x :=
        ((op_left (img_props b)
          + (op_width (img_props b) * op_scaleX (img_props b)) / 2)
         * combinedZoom)%float in
      let bgCenter_y :=
        ((op_top (img_props b)
          + (op_height (img_props b) * op_scaleY (img_props b)) / 2)
         * combinedZoom)%float in
      ((canvasCenter_x - bgCenter_x)%float,
       (canvasCenter_y - bgCenter_y)%float)
  | _, _ => (0%float, 0%float)
  end.

(** [updateViewport(params)].  A reference always points to a live
    object in JavaScript; a world whose reference dangles is left as it
    is. *)
Definition updateViewport (params : Params) (w : World) : World :=
  let manualZoom := default 1%float (st_manualZoom (store w)) in
  let defaultCentered := st_defaultCentered (store w) in
  match backgroundImageRef w, st_canvas (store w) with
  | Some r, Some canvas =>
      match heap w !! r with
      | None => w
      | Some img =>
          let fitZoom := fitZoom_of params img canvas in
          let combinedZoom := (fitZoom * manualZoom)%float in
          let w1 :=
            setViewportTransform
              (Mat combinedZoom 0 0 combinedZoom 0 0) w in
          let bg := cv_backgroundImage canvas ≫= (fun b => heap w !! b) in
          let '(deltaX, deltaY) :=
            centering defaultCentered canvas bg combinedZoom in
          let finalTransform :=
            Mat combinedZoom 0 0 combinedZoom deltaX deltaY in
          let w2 := setViewportTransform finalTransform w1 in
          let w3 := requestRenderAll w2 in
          setState fitZoom manualZoom combinedZoom w3
      end
  | _, _ => w
  end.

(** ** The component *)

(** The props of one render: [src], whether [onLoad] was passed, the two
    scale flags, and the rest object [options] with its entries in
    insertion order. *)
Record Props : Type := mkProps
  { src : string;
    onLoad : bool;
    p_scaleToFit : bool;
    p_scaleToCover : bool;
    options : list (string * value) }.

Definition params_of (p : Props) : Params :=
  mkParams (p_scaleToFit p) (p_scaleToCover p).

(** What the [.then] callback of one load closes over: the props of the
    render that started it and the [domNode] read at that time. *)
Record Load : Type := mkLoad
  { ld_src : string;
    ld_options : list (string * value);
    ld_params : Params;
    ld_onLoad : bool;
    ld_domNode : bool }.

Inductive Lifecycle : Type := Fresh | Mounted | Unmounted.

(** One component instance: its world, where it is in React's life
    cycle, the dependencies of its last commit, whether the last run of
    the [src] effect returned a cleanup, and the loads in flight
    ([None] once settled). *)
Record Comp : Type := mkComp
  { world : World;
    lifecycle : Lifecycle;
    last_src : string;
    last_deps : float * float * bool * bool;
    cleanup : bool;
    pending : list (option Load) }.

Definition with_world (w : World) (c : Comp) : Comp :=
  mkComp w (lifecycle c) (last_src c) (last_deps c) (cleanup c) (pending c).

Definition on_world (f : World -> World) (c : Comp) : Comp :=
  with_world (f (world c)) c.

(** [{...options, objectCaching: false}]: an own key keeps its place and
    takes the new value, a new key goes last. *)
Fixpoint assign (key : string) (v : value) (o : list (string * value))
  : list (string * value) :=
  match o with
  | [] => [(key, v)]
  | (k, x) :: t =>
      if String.eqb k key then (k, v) :: t else (k, x) :: assign key v t
  end.

Section Component.

Context `{FabricObject}.

(** [object.set({...})]: fabric sets the entries one by one. *)
Definition set_object (entries : list (string * value)) (o : ObjectProps)
  : ObjectProps :=
  fold_left (fun o kv => obj_set (fst kv) (snd kv) o) entries o.

Definition on_image (r : nat) (f : ObjectProps -> ObjectProps) (w : World)
  : World :=
  with_heap
    (alter (fun i => mkImage (img_src i) (f (img_props i))) r (heap w)) w.

Definition set (r : nat) (key : string) (v : value) (w : World) : World :=
  emit (image_set r key v) (on_image r (obj_set key v) w).

Definition rotate (r : nat) (v : value) (w : World) : World :=
  emit (image_rotate r v) (on_image r (obj_rotate v) w).

(** The [.then] callback of the load, run with the decoded image.  The
    image becomes a heap object when it is attached; a dropped one is
    unreachable. *)
Definition thenCallback (ld : Load) (decoded : ObjectProps) (w : World)
  : World :=
  match st_canvas (store w) with
  | Some canvas =>
      if JS.truthy (cv_width canvas) && JS.truthy (cv_height canvas) then
        let entries := assign "objectCaching" (VBool false) (ld_options ld) in
        let imageSource := length (heap w) in
        let w1 :=
          emit (image_set_object imageSource entries)
            (with_heap
               (heap w ++ [mkImage (ld_src ld) (set_object entries decoded)])
               w) in
        let w2 := emit context_smoothing (on_canvas cv_with_smoothing w1) in
        let w3 :=
          emit (canvas_assign_backgroundImage imageSource)
            (on_canvas (cv_with_backgroundImage imageSource) w2) in
        let w4 := with_ref (Some imageSource) w3 in
        let w5 := updateViewport (ld_params ld) w4 in
        match st_canvas (store w5) ≫= cv_viewportTransform with
        | None => w5
        | Some _ =>
            let w6 :=
              if ld_onLoad ld then emit (props_onLoad imageSource) w5
              else w5 in
            if ld_domNode ld then emit (domNode_dataset_src (ld_src ld)) w6
            else w6
        end
      else w
  | None => w
  end.

(** The [.finally] callback. *)
Definition finallyCallback (w : World) : World := setLoading false w.

(** The body of the [src] effect.  With an empty [src] it returns at
    once and registers no cleanup. *)
Definition srcEffect (p : Props) (c : Comp) : Comp :=
  if String.eqb (src p) "" then
    mkComp (world c) (lifecycle c) (last_src c) (last_deps c) false
           (pending c)
  else
    let domNode := st_domNode (store (world c)) in
    let w1 := setLoading true (world c) in
    let w2 := emit (FabricImage_fromURL (src p)) w1 in
    mkComp w2 (lifecycle c) (last_src c) (last_deps c) true
           (pending c ++
              [Some (mkLoad (src p) (options p) (params_of p) (onLoad p)
                            domNode)]).

(** The cleanup the [src] effect returns. *)
Definition srcCleanup (w : World) : World :=
  let canvas := st_canvas (store w) in
  let w1 :=
    match backgroundImageRef w with
    | Some r =>
        with_ref None (match canvas with Some _ => remove r w | None => w end)
    | None => w
    end in
  match canvas with
  | Some c => if cv_element c then renderAll w1 else w1
  | None => w1
  end.

(** The callback handed to [useDidUpdate]. *)
Definition optionsSync (opts : list (string * value)) (w : World) : World :=
  match backgroundImageRef w with
  | Some r =>
      let w1 :=
        fold_left
          (fun w kv =>
             if String.eqb (fst kv) "angle" then rotate r (snd kv) w
             else set r (fst kv) (snd kv) w)
          opts w in
      match st_canvas (store w) with
      | Some _ => requestRenderAll w1
      | None => w1
      end
  | None => w
  end.

Definition deps_of (p : Props) (c : Comp) : float * float * bool * bool :=
  (st_width (store (world c)), st_height (store (world c)),
   p_scaleToFit p, p_scaleToCover p).

Definition same_deps (x y : float * float * bool * bool) : bool :=
  match x, y with
  | (w1, h1, f1, c1), (w2, h2, f2, c2) =>
      JS.same w1 w2 && JS.same h1 h2 && Bool.eqb f1 f2 && Bool.eqb c1 c2
  end.

Definition commit (p : Props) (c : Comp) : Comp :=
  mkComp (world c) Mounted (src p) (deps_of p c) (cleanup c) (pending c).

(** One render and its commit.  React runs the cleanups of the effects
    whose dependencies changed, then the effects, in the order of the
    hooks: the viewport effect, the [src] effect, the options effect.
    Modelled from the spec: [useDidUpdate] ([hooks/useDidUpdate] is not
    among the sources) runs its callback on every commit but the first
    in which a dependency changed; [options] is a new rest object at
    every render, so that is every commit but the first. *)
Definition render (p : Props) (c : Comp) : Comp :=
  match lifecycle c with
  | Unmounted => c
  | Fresh =>
      let c1 := on_world (updateViewport (params_of p)) c in
      let c2 := srcEffect p c1 in
      commit p c2
  | Mounted =>
      let src_changed := negb (String.eqb (last_src c) (src p)) in
      let viewport_changed := negb (same_deps (last_deps c) (deps_of p c)) in
      let c1 :=
        if src_changed && cleanup c then on_world srcCleanup c else c in
      let c2 :=
        if viewport_changed then on_world (updateViewport (params_of p)) c1
        else c1 in
      let c3 := if src_changed then srcEffect p c2 else c2 in
      let c4 := on_world (optionsSync (options p)) c3 in
      commit p c4
  end.

(** Unmounting runs the registered cleanup. *)
Definition unmount (c : Comp) : Comp :=
  match lifecycle c with
  | Mounted =>
      let c1 := if cleanup c then on_world srcCleanup c else c in
      mkComp (world c1) Unmounted (last_src c1) (last_deps c1) false
             (pending c1)
  | _ => c
  end.

(** A load in flight settles: fulfilled with the decoded image, or
    rejected.  Nothing cancels a load, so this runs whatever the life
    cycle says. *)
Definition settle (i : nat) (result : option ObjectProps) (c : Comp) : Comp :=
  match pending c !! i with
  | Some (Some ld) =>
      let w1 :=
        match result with
        | Some decoded => thenCallback ld decoded (world c)
        | None => world c
        end in
      mkComp (finallyCallback w1) (lifecycle c) (last_src c) (last_deps c)
             (cleanup c) (<[i := None]> (pending c))
  | _ => c
  end.

(** What can happen to an instance. *)
Inductive Event : Type :=
  | Render (p : Props)
  | Unmount
  | Settle (i : nat) (result : option ObjectProps)
  | External (s : ReactFabricState).

Definition step (c : Comp) (e : Event) : Comp :=
  match e with
  | Render p => render p c
  | Unmount => unmount c
  | Settle i result => settle i result c
  | External s => on_world (with_store s) c
  end.

Definition run (es : list Event) (c : Comp) : Comp := fold_left step es c.

(** A component about to mount in a given store and heap. *)
Definition initial (s : ReactFabricState) (h : list FabricImage) : Comp :=
  mkComp (mkWorld s h None []) Fresh "" (0%float, 0%float, false, false)
         false [].

(** The URL of the image the component holds. *)
Definition attached (w : World) : option string :=
  img_src <$> (backgroundImageRef w ≫= (fun r => heap w !! r)).

(** The URL of the canvas's background image. *)
Definition background (w : World) : option string :=
  match st_canvas (store w) with
  | Some canvas =>
      img_src <$> (cv_backgroundImage canvas ≫= (fun r => heap w !! r))
  | None => None
  end.

(** The store writes in a trace. *)
Definition is_store_write (c : Call) : bool :=
  match c with
  | store_setLoading _ | store_setState _ _ _ => true
  | _ => false
  end.

End Component.

(** The calls made between two worlds of one run. *)
Definition calls_since (w w' : World) : list Call :=
  drop (length (trace w)) (trace w').

(** The transform the canvas ends up with. *)
Definition viewportTransform (w : World) : option TMat2D :=
  st_canvas (store w) ≫= cv_viewportTransform.

(** The calls that set the viewport transform. *)
Definition is_setViewportTransform (c : Call) : bool :=
  match c with
  | canvas_setViewportTransform _ => true
  | _ => false
  end.

(** The last transform handed to the canvas among some calls. *)
Definition last_transform (cs : list Call) : option Call :=
  last (List.filter is_setViewportTransform cs).

(** The guard of the [.then] callback: a canvas in the store whose width
    and height are both truthy. *)
Definition ready (w : World) : bool :=
  match st_canvas (store w) with
  | Some canvas => JS.truthy (cv_width canvas) && JS.truthy (cv_height canvas)
  | None => false
  end.

Definition is_onLoad (c : Call) : bool :=
  match c with
  | props_onLoad _ => true
  | _ => false
  end.

Definition is_requestRenderAll (c : Call) : bool :=
  match c with
  | canvas_requestRenderAll => true
  | _ => false
  end.

(** The call the options effect makes for one entry. *)
Definition sync_call (r : nat) (kv : string * value) : Call :=
  if String.eqb (fst kv) "angle" then image_rotate r (snd kv)
  else image_set r (fst kv) (snd kv).

(** No load is in flight. *)
Definition all_settled (c : Comp) : Prop :=
  Forall (fun o => o = None) (pending c).

(** ** A plain drawing library

    One implementation of the object interface, to run the component on
    concrete inputs: [set] assigns the property, [rotate] assigns the
    angle. *)

Definition plain_set (key : string) (v : value) (o : ObjectProps)
  : ObjectProps :=
  match v with
  | VNum x =>
      if String.eqb key "left" then
        mkObjectProps x (op_top o) (op_width o) (op_height o) (op_scaleX o)
                      (op_scaleY o) (op_angle o) (op_objectCaching o)
                      (op_other o)
      else if String.eqb key "top" then
        mkObjectProps (op_left o) x (op_width o) (op_height o) (op_scaleX o)
                      (op_scaleY o) (op_angle o) (op_objectCaching o)
                      (op_other o)
      else if String.eqb key "width" then
        mkObjectProps (op_left o) (op_top o) x (op_height o) (op_scaleX o)
                      (op_scaleY o) (op_angle o) (op_objectCaching o)
                      (op_other o)
      else if String.eqb key "height" then
        mkObjectProps (op_left o) (op_top o) (op_width o) x (op_scaleX o)
                      (op_scaleY o) (op_angle o) (op_objectCaching o)
                      (op_other o)
      else if String.eqb key "scaleX" then
        mkObjectProps (op_left o) (op_top o) (op_width o) (op_height o) x
                      (op_scaleY o) (op_angle o) (op_objectCaching o)
                      (op_other o)
      else if String.eqb key "scaleY" then
        mkObjectProps (op_left o) (op_top o) (op_width o) (op_height o)
                      (op_scaleX o) x (op_angle o) (op_objectCaching o)
                      (op_other o)
      else if String.eqb key "angle" then
        mkObjectProps (op_left o) (op_top o) (op_width o) (op_height o)
                      (op_scaleX o) (op_scaleY o) x (op_objectCaching o)
                      (op_other o)
      else
        mkObjectProps (op_left o) (op_top o) (op_width o) (op_height o)
                      (op_scaleX o) (op_scaleY o) (op_angle o)
                      (op_objectCaching o) (assign key v (op_other o))
  | VBool b =>
      if String.eqb key "objectCaching" then
        mkObjectProps (op_left o) (op_top o) (op_width o) (op_height o)
                      (op_scaleX o) (op_scaleY o) (op_angle o) b (op_other o)
      else
        mkObjectProps (op_left o) (op_top o) (op_width o) (op_height o)
                      (op_scaleX o) (op_scaleY o) (op_angle o)
                      (op_objectCaching o) (assign key v (op_other o))
  | VStr _ =>
      mkObjectProps (op_left o) (op_top o) (op_width o) (op_height o)
                    (op_scaleX o) (op_scaleY o) (op_angle o)
                    (op_objectCaching o) (assign key v (op_other o))
  end.

Definition plain_rotate (v : value) (o : ObjectProps) : ObjectProps :=
  plain_set "angle" v o.

Definition plain_object : FabricObject :=
  {| obj_set := plain_set; obj_rotate := plain_rotate |}.

(** ** Sample inputs *)

Module Sample.

(** A decoded image of 400 by 200 at the origin, unscaled. *)
Definition decoded : ObjectProps :=
  mkObjectProps 0 0 400 200 1 1 0 true [].

(** A canvas of 800 by 600 with a live element. *)
Definition canvas : Canvas :=
  mkCanvas 800 600 None None [] true false "low".

Definition state (oc : option Canvas) : ReactFabricState :=
  mkState 800 600 oc None false true false 1 1.

(** The component holds the 400 by 200 image as object 0 and the
    canvas shows it. *)
Definition attached_world (centered : bool) (manualZoom : option float)
  : World :=
  mkWorld
    (mkState 800 600 (Some (cv_with_backgroundImage 0 canvas)) manualZoom
             centered true false 1 1)
    [mkImage "a.png" decoded] (Some 0) [].

(** A canvas is in the store, the component holds no image. *)
Definition detached_world : World :=
  mkWorld (mkState 800 600 (Some canvas) (Some 2%float) false true false 7 7)
          [] None [].

(** The same image on a canvas of 600 by 300, with a manual zoom of 2. *)
Definition zoomed_world : World :=
  mkWorld
    (mkState 600 300
             (Some (mkCanvas 600 300 (Some 0) None [] true false "low"))
             (Some 2%float) false true false 1 1)
    [mkImage "a.png" decoded] (Some 0) [].

Definition fit : Params := mkParams true false.
Definition cover : Params := mkParams false true.
Definition neither : Params := mkParams false false.

Definition props (url : string) : Props :=
  mkProps url true true false [("opacity", VNum 0.5)].

(** The race of two loads: mount with "a.png", change to "b.png" while
    the first load is in flight, then "b.png" decodes. *)
Definition mount_a_then_b : Comp :=
  run (H := plain_object)
      [Render (props "a.png"); Render (props "b.png");
       Settle 1 (Some decoded)]
      (initial (state (Some canvas)) []).

End Sample.

(** ** Observations

    What of a canvas and of the store the component never assigns
    through [updateViewport]: everything but the viewport transform and
    the three zoom fields. *)

Definition canvas_frame (c : Canvas)
  : float * float * option nat * list nat * bool * bool * string :=
  (cv_width c, cv_height c, cv_backgroundImage c, cv_objects c,
   cv_element c, cv_imageSmoothingEnabled c, cv_imageSmoothingQuality c).

Definition store_frame (s : ReactFabricState) :=
  (st_width s, st_height s, canvas_frame <$> st_canvas s,
   st_defaultCentered s, st_domNode s, st_loading s).

(** The value an object literal holds for a key. *)
Fixpoint entry (key : string) (o : list (string * value)) : option value :=
  match o with
  | [] => None
  | (k, x) :: t => if String.eqb k key then Some x else entry key t
  end.

Definition is_dataset (c : Call) : bool :=
  match c with
  | domNode_dataset_src _ => true
  | _ => false
  end.

(** The calls on the canvas and on image objects. *)
Definition is_canvas_call (c : Call) : bool :=
  match c with
  | store_setLoading _ | store_setState _ _ _ | FabricImage_fromURL _
  | props_onLoad _ | domNode_dataset_src _ => false
  | _ => true
  end.

(** A load is in flight at index [i]. *)
Definition in_flight (c : Comp) (i : nat) : Prop :=
  exists ld, pending c !! i = Some (Some ld).

(** The calls of the viewport update and of the options effect. *)
Definition is_update_call (c : Call) : bool :=
  match c with
  | canvas_setViewportTransform _ | canvas_requestRenderAll
  | store_setState _ _ _ | image_set _ _ _ | image_rotate _ _ => true
  | _ => false
  end.

(** The component's reference points at a live object. *)
Definition ref_live (w : World) : Prop :=
  forall r, backgroundImageRef w = Some r -> r < length (heap w).

(** ** Parts of a run *)

(** The options of a render applied to the visual state of an object, in
    order: the angle through [rotate], the rest through [set]. *)
Definition apply_options `{FabricObject} (opts : list (string * value))
  (o : ObjectProps) : ObjectProps :=
  fold_left
    (fun o kv =>
       if String.eqb (fst kv) "angle" then obj_rotate (snd kv) o
       else obj_set (fst kv) (snd kv) o)
    opts o.

(** The effects of a commit of a mounted component that run before the
    options effect: the cleanup of a changed [src], the viewport effect,
    the [src] effect. *)
Definition effects_before_sync (p : Props) (c : Comp) : Comp :=
  let src_changed := negb (String.eqb (last_src c) (src p)) in
  let viewport_changed := negb (same_deps (last_deps c) (deps_of p c)) in
  let c1 := if src_changed && cleanup c then on_world srcCleanup c else c in
  let c2 :=
    if viewport_changed then on_world (updateViewport (params_of p)) c1
    else c1 in
  if src_changed then srcEffect p c2 else c2.




(** More sample inputs. *)
Module Scenario.

(** The race sample after the canvas has left the store: the image of
    "b.png" is still attached. *)
Definition without_canvas : Comp :=
  run (H := plain_object) [External (Sample.state None)]
      Sample.mount_a_then_b.

(** The props of the race sample with another opacity. *)
Definition dimmer : Props :=
  mkProps "b.png" true true false [("opacity", VNum 0.25)].

(** The events that lead to the race sample. *)
Definition race : list Event :=
  [Render (Sample.props "a.png"); Render (Sample.props "b.png");
   Settle 1 (Some Sample.decoded)].

End Scenario.

(** * Properties *)

(** ** JavaScript numbers, checked on values *)

Example Math_min_2_3 : JS.Math_min 2 3 = 2%float.
Proof. reflexivity. Qed.

Example Math_max_2_3 : JS.Math_max 2 3 = 3%float.
Proof. reflexivity. Qed.

Example Math_min_zeros : JS.Math_min 0 (-0) = (-0)%float.
Proof. reflexivity. Qed.

Example Math_max_nan : JS.Math_max PrimFloat.nan 1 = PrimFloat.nan.
Proof. reflexivity. Qed.

Example truthy_values :
  JS.truthy 800 = true /\ JS.truthy 0 = false /\
  JS.truthy (-0) = false /\ JS.truthy PrimFloat.nan = false.
Proof. repeat split. Qed.

(** ** The viewport update *)

Section Viewport.

Variables (params : Params) (w : World).
Variables (r : nat) (img : FabricImage) (canvas : Canvas).
Hypothesis Href : backgroundImageRef w = Some r.
Hypothesis Himg : heap w !! r = Some img.
Hypothesis Hcanvas : st_canvas (store w) = Some canvas.

Let manualZoom : float := default 1%float (st_manualZoom (store w)).
Let fitZoom : float := fitZoom_of params img canvas.
Let combinedZoom : float := (fitZoom * manualZoom)%float.
Let delta : float * float :=
  centering (st_defaultCentered (store w)) canvas
    (cv_backgroundImage canvas ≫= (fun b => heap w !! b)) combinedZoom.
Let finalTransform : TMat2D :=
  Mat combinedZoom 0 0 combinedZoom (fst delta) (snd delta).

(** With an image and a canvas, the update is this straight line. *)
Lemma updateViewport_live :
  updateViewport params w =
    setState fitZoom manualZoom combinedZoom
      (requestRenderAll
         (setViewportTransform finalTransform
            (setViewportTransform
               (Mat combinedZoom 0 0 combinedZoom 0 0) w))).
Proof.
  unfold updateViewport. rewrite Href, Hcanvas, Himg.
  subst finalTransform delta combinedZoom fitZoom manualZoom.
  destruct (centering _ _ _ _) as [dx dy]. reflexivity.
Qed.

Lemma updateViewport_calls :
  calls_since w (updateViewport params w) =
    [ canvas_setViewportTransform (Mat combinedZoom 0 0 combinedZoom 0 0);
      canvas_setViewportTransform finalTransform;
      canvas_requestRenderAll;
      store_setState fitZoom manualZoom combinedZoom ].
Proof.
  rewrite updateViewport_live. unfold calls_since. cbn.
  repeat rewrite <- app_assoc. cbn.
  rewrite drop_app_length. reflexivity.
Qed.

Lemma updateViewport_store :
  store (updateViewport params w) =
    st_with_zooms fitZoom manualZoom combinedZoom
      (st_with_canvas (Some (cv_with_viewportTransform finalTransform canvas))
                      (store w)).
Proof.
  rewrite updateViewport_live. cbn. rewrite Hcanvas. reflexivity.
Qed.

End Viewport.

(** C1.  With a canvas of width W and height H and a held image of
    width w and height h, the viewport update computes
    fitZoom = min(W/w, H/h) under [scaleToFit], max(W/w, H/h) under
    [scaleToCover], and 1 with neither flag; a canvas of 800 by 600 and
    an image of 400 by 200 give 2 under fit and 3 under cover.  No
    positivity is needed: the equations hold at every size. *)
Theorem updateViewport_fitZoom
  (params : Params) (w : World) (r : nat) (img : FabricImage)
  (canvas : Canvas)
  (Href : backgroundImageRef w = Some r)
  (Himg : heap w !! r = Some img)
  (Hcanvas : st_canvas (store w) = Some canvas) :
  let W := cv_width canvas in
  let H := cv_height canvas in
  let iw := op_width (img_props img) in
  let ih := op_height (img_props img) in
  let fitZoom := st_fitZoom (store (updateViewport params w)) in
  (scaleToFit params = true ->
     fitZoom = JS.Math_min (W / iw)%float (H / ih)%float) /\
  (scaleToFit params = false -> scaleToCover params = true ->
     fitZoom = JS.Math_max (W / iw)%float (H / ih)%float) /\
  (scaleToFit params = false -> scaleToCover params = false ->
     fitZoom = 1%float) /\
  (W = 800%float -> H = 600%float -> iw = 400%float -> ih = 200%float ->
     (scaleToFit params = true -> fitZoom = 2%float) /\
     (scaleToFit params = false -> scaleToCover params = true ->
        fitZoom = 3%float)).
Proof.
  cbv zeta.
  rewrite (updateViewport_store params w r img canvas Href Himg Hcanvas).
  cbn [st_fitZoom st_with_zooms]. unfold fitZoom_of.
  repeat split.
  - intros ->. reflexivity.
  - intros -> ->. reflexivity.
  - intros -> ->. reflexivity.
  - intros ->. unfold findScaleToFit. rewrite H, H0, H1, H2. reflexivity.
  - intros -> ->. unfold findScaleToCover. rewrite H, H0, H1, H2. reflexivity.
Qed.

(** The scenario of C1, run: 800 by 600 and 400 by 200. *)
Lemma updateViewport_fitZoom_scenario :
  st_fitZoom (store (updateViewport Sample.fit
                       (Sample.attached_world false None))) = 2%float /\
  st_fitZoom (store (updateViewport Sample.cover
                       (Sample.attached_world false None))) = 3%float.
Proof.
  split.
  - apply (updateViewport_fitZoom Sample.fit
             (Sample.attached_world false None) 0
             (mkImage "a.png" Sample.decoded)
             (cv_with_backgroundImage 0 Sample.canvas)
             eq_refl eq_refl eq_refl); reflexivity.
  - apply (updateViewport_fitZoom Sample.cover
             (Sample.attached_world false None) 0
             (mkImage "a.png" Sample.decoded)
             (cv_with_backgroundImage 0 Sample.canvas)
             eq_refl eq_refl eq_refl); reflexivity.
Defined.

(** C2.  With an image and a canvas present, the final transform is
    [z, 0, 0, z, deltaX, deltaY] with z the combined zoom.  When
    [defaultCentered] holds and the canvas has a background image,
    deltaX = canvasWidth/2 - (left + width*scaleX/2)*z and
    deltaY = canvasHeight/2 - (top + height*scaleY/2)*z; when
    [defaultCentered] is false the translation is (0, 0) wherever the
    image is. *)
Theorem updateViewport_translation
  (params : Params) (w : World) (r : nat) (img : FabricImage)
  (canvas : Canvas)
  (Href : backgroundImageRef w = Some r)
  (Himg : heap w !! r = Some img)
  (Hcanvas : st_canvas (store w) = Some canvas) :
  let z :=
    (fitZoom_of params img canvas
     * default 1%float (st_manualZoom (store w)))%float in
  exists deltaX deltaY : float,
    viewportTransform (updateViewport params w)
      = Some (Mat z 0 0 z deltaX deltaY) /\
    last_transform (calls_since w (updateViewport params w))
      = Some (canvas_setViewportTransform (Mat z 0 0 z deltaX deltaY)) /\
    (forall (b : nat) (bg : FabricImage),
       st_defaultCentered (store w) = true ->
       cv_backgroundImage canvas = Some b ->
       heap w !! b = Some bg ->
       deltaX =
         (cv_width canvas / 2
          - (op_left (img_props bg)
             + (op_width (img_props bg) * op_scaleX (img_props bg)) / 2)
            * z)%float /\
       deltaY =
         (cv_height canvas / 2
          - (op_top (img_props bg)
             + (op_height (img_props bg) * op_scaleY (img_props bg)) / 2)
            * z)%float) /\
    (st_defaultCentered (store w) = false ->
       deltaX = 0%float /\ deltaY = 0%float).
Proof.
  cbv zeta.
  eexists _, _. split; [| split; [| split]].
  - unfold viewportTransform.
    rewrite (updateViewport_store params w r img canvas Href Himg Hcanvas).
    cbn. reflexivity.
  - rewrite (updateViewport_calls params w r img canvas Href Himg Hcanvas).
    reflexivity.
  - intros b bg Hc Hb Hbg. rewrite Hc, Hb. cbn. rewrite Hbg. cbn.
    split; reflexivity.
  - intros Hc. rewrite Hc. cbn. split; reflexivity.
Qed.

(** C2 at a centred sample: 800 by 600, image 400 by 200 at the origin,
    fit zoom 2, so the translation is (400 - 200*2, 300 - 100*2). *)
Lemma updateViewport_translation_sample :
  viewportTransform (updateViewport Sample.fit
                       (Sample.attached_world true None))
    = Some (Mat 2 0 0 2 0 100).
Proof.
  destruct (updateViewport_translation Sample.fit
              (Sample.attached_world true None) 0
              (mkImage "a.png" Sample.decoded)
              (cv_with_backgroundImage 0 Sample.canvas)
              eq_refl eq_refl eq_refl)
    as (dx & dy & Hvt & _ & Hc & _).
  destruct (Hc 0 (mkImage "a.png" Sample.decoded) eq_refl eq_refl eq_refl)
    as [-> ->].
  exact Hvt.
Defined.

Lemma calls_since_refl (w : World) : calls_since w w = [].
Proof. unfold calls_since. apply drop_all. Qed.

(** C3, as stated, fails: with a canvas in the store and no image held
    by the component the update returns at its guard, makes no call and
    leaves the store's zoom at 7, not at fitZoom * manualZoom = 1 * 2. *)
Lemma updateViewport_guard_skips_store :
  st_canvas (store Sample.detached_world) = Some Sample.canvas /\
  ~ (exists f m z : float,
       In (store_setState f m z)
          (calls_since Sample.detached_world
             (updateViewport Sample.neither Sample.detached_world))) /\
  st_zoom (store (updateViewport Sample.neither Sample.detached_world))
    <> (1 * 2)%float.
Proof.
  split; [reflexivity | split].
  - intros (f & m & z & Hin). exact Hin.
  - intros E.
    apply (f_equal (fun x => PrimFloat.Leibniz.eqb x 2%float)) in E.
    vm_compute in E. discriminate E.
Qed.

(** C3, amended.  When the viewport update runs with a canvas in the
    store and the component holds an image, it writes fitZoom,
    manualZoom and the combined zoom to the store, also when the canvas
    itself has no background image; when the component holds no image
    the update changes nothing and writes nothing. *)
Theorem updateViewport_store_write
  (params : Params) (w : World) (canvas : Canvas)
  (Hcanvas : st_canvas (store w) = Some canvas) :
  (forall (r : nat) (img : FabricImage),
     backgroundImageRef w = Some r ->
     heap w !! r = Some img ->
     let m := default 1%float (st_manualZoom (store w)) in
     let f := fitZoom_of params img canvas in
     let w' := updateViewport params w in
     In (store_setState f m (f * m)%float) (calls_since w w') /\
     st_fitZoom (store w') = f /\
     st_manualZoom (store w') = Some m /\
     st_zoom (store w') = (f * m)%float) /\
  (backgroundImageRef w = None ->
     updateViewport params w = w /\
     calls_since w (updateViewport params w) = []).
Proof.
  split.
  - intros r img Href Himg. cbv zeta.
    rewrite (updateViewport_calls params w r img canvas Href Himg Hcanvas).
    rewrite (updateViewport_store params w r img canvas Href Himg Hcanvas).
    cbn. tauto.
  - intros Href. unfold updateViewport. rewrite Href.
    split; [reflexivity | apply calls_since_refl].
Qed.

(** The amended C3 at a sample: no background image on the canvas, an
    image held by the component, and the store is written. *)
Lemma updateViewport_store_write_sample :
  st_zoom (store (updateViewport Sample.fit
                    (with_store (Sample.state (Some Sample.canvas))
                       (Sample.attached_world false None))))
    = (2 * 1)%float.
Proof.
  destruct (updateViewport_store_write Sample.fit
              (with_store (Sample.state (Some Sample.canvas))
                 (Sample.attached_world false None))
              Sample.canvas eq_refl) as [Hw _].
  destruct (Hw 0 (mkImage "a.png" Sample.decoded) eq_refl eq_refl)
    as (_ & _ & _ & Hz).
  exact Hz.
Defined.

(** C9.  Whenever the viewport update writes to the store, the written
    zoom is exactly fitZoom * manualZoom, whatever manualZoom is, and the
    written manualZoom is the store's, or 1 when the store has none. *)
Theorem updateViewport_written_zoom
  (params : Params) (w : World) (f m z : float)
  (Hwrite : In (store_setState f m z)
               (calls_since w (updateViewport params w))) :
  z = (f * m)%float /\
  m = default 1%float (st_manualZoom (store w)) /\
  (st_manualZoom (store w) = None -> m = 1%float) /\
  (exists (r : nat) (img : FabricImage) (canvas : Canvas),
     backgroundImageRef w = Some r /\ heap w !! r = Some img /\
     st_canvas (store w) = Some canvas /\
     f = fitZoom_of params img canvas) /\
  st_fitZoom (store (updateViewport params w)) = f /\
  st_zoom (store (updateViewport params w)) = z.
Proof.
  destruct (backgroundImageRef w) as [r|] eqn:Href.
  2:{ unfold updateViewport in Hwrite. rewrite Href in Hwrite.
      rewrite calls_since_refl in Hwrite. destruct Hwrite. }
  destruct (st_canvas (store w)) as [canvas|] eqn:Hcanvas.
  2:{ unfold updateViewport in Hwrite. rewrite Href, Hcanvas in Hwrite.
      rewrite calls_since_refl in Hwrite. destruct Hwrite. }
  destruct (heap w !! r) as [img|] eqn:Himg.
  2:{ unfold updateViewport in Hwrite. rewrite Href, Hcanvas, Himg in Hwrite.
      rewrite calls_since_refl in Hwrite. destruct Hwrite. }
  rewrite (updateViewport_calls params w r img canvas Href Himg Hcanvas)
    in Hwrite.
  rewrite (updateViewport_store params w r img canvas Href Himg Hcanvas).
  cbn in Hwrite.
  destruct Hwrite as [E | [E | [E | [E | []]]]]; try discriminate E.
  injection E as <- <- <-. cbn.
  repeat split; try reflexivity.
  - intros ->. reflexivity.
  - exists r, img, canvas. repeat split; reflexivity || assumption.
Qed.

(** C9 at the scenario of the specification: manualZoom 2 and fit zoom
    1.5 (a canvas of 600 by 300) give a written zoom of 3. *)
Lemma updateViewport_written_zoom_sample :
  st_zoom (store (updateViewport Sample.fit Sample.zoomed_world)) = 3%float /\
  3%float = (1.5 * 2)%float.
Proof.
  destruct (updateViewport_written_zoom Sample.fit Sample.zoomed_world
              1.5 2 3)
    as (Hz & _ & _ & _ & _ & Hs).
  - vm_compute. right. right. right. left. reflexivity.
  - split; [exact Hs | exact Hz].
Defined.

(** ** Traces *)

Lemma calls_since_app (w w' : World) (l : list Call) :
  trace w' = trace w ++ l -> calls_since w w' = l.
Proof.
  intros E. unfold calls_since. rewrite E. apply drop_app_length.
Qed.

Lemma updateViewport_trace (params : Params) (w : World) :
  exists l, trace (updateViewport params w) = trace w ++ l /\
            Forall (fun c => is_onLoad c = false) l.
Proof.
  unfold updateViewport.
  destruct (backgroundImageRef w) as [r|];
    [| exists []; split; [symmetry; apply app_nil_r | constructor]].
  destruct (st_canvas (store w)) as [canvas|];
    [| exists []; split; [symmetry; apply app_nil_r | constructor]].
  destruct (heap w !! r) as [img|];
    [| exists []; split; [symmetry; apply app_nil_r | constructor]].
  destruct (centering _ _ _ _) as [dx dy]. cbn.
  eexists. split.
  - repeat rewrite <- app_assoc. cbn. reflexivity.
  - repeat constructor.
Qed.

(** ** The [src] effect *)

(** C10.  With an empty [src] the load effect does nothing: the world is
    unchanged (no write of the loading flag, no decode request, no
    canvas mutation, no call at all), no load is added, and no cleanup is
    registered for the run; a component mounting with an empty [src]
    leaves its world as it found it. *)
Theorem srcEffect_empty_src (p : Props) (c : Comp) (Hsrc : src p = "") :
  world (srcEffect p c) = world c /\
  calls_since (world c) (world (srcEffect p c)) = [] /\
  pending (srcEffect p c) = pending c /\
  cleanup (srcEffect p c) = false /\
  (forall `{FabricObject} (s : ReactFabricState) (h : list FabricImage),
     world (render p (initial s h)) = world (initial s h) /\
     pending (render p (initial s h)) = [] /\
     cleanup (render p (initial s h)) = false).
Proof.
  unfold srcEffect. rewrite Hsrc. cbn.
  repeat split; try reflexivity.
  - apply calls_since_refl.
  - unfold render, srcEffect. cbn. rewrite Hsrc. reflexivity.
  - unfold render, srcEffect. cbn. rewrite Hsrc. reflexivity.
  - unfold render, srcEffect. cbn. rewrite Hsrc. reflexivity.
Qed.

(** C10 at a sample: an empty [src] over a ready canvas. *)
Lemma srcEffect_empty_src_sample :
  world (srcEffect (Sample.props "")
           (initial (Sample.state (Some Sample.canvas)) []))
    = mkWorld (Sample.state (Some Sample.canvas)) [] None [].
Proof.
  destruct (srcEffect_empty_src (Sample.props "")
              (initial (Sample.state (Some Sample.canvas)) []) eq_refl)
    as (Hw & _).
  exact Hw.
Defined.

Section Lifecycle.

Context `{FabricObject}.

Lemma srcEffect_pending (p : Props) (c : Comp) :
  exists l, pending (srcEffect p c) = pending c ++ l.
Proof.
  unfold srcEffect. destruct (String.eqb (src p) "").
  - exists []. cbn. symmetry. apply app_nil_r.
  - eexists. cbn. reflexivity.
Qed.

Lemma render_pending (p : Props) (c : Comp) :
  exists l, pending (render p c) = pending c ++ l.
Proof.
  unfold render. destruct (lifecycle c).
  - cbn. apply (srcEffect_pending p (on_world _ c)).
  - cbn.
    set (c1 := if _ && _ then _ else c).
    assert (E1 : pending c1 = pending c) by (subst c1; destruct (_ && _); reflexivity).
    set (c2 := if negb (same_deps _ _) then _ else c1).
    assert (E2 : pending c2 = pending c)
      by (subst c2; destruct (negb (same_deps _ _)); [cbn|]; exact E1).
    destruct (negb (String.eqb (last_src c) (src p))).
    + destruct (srcEffect_pending p c2) as [l El]. exists l.
      rewrite El, E2. reflexivity.
    + exists []. rewrite E2. symmetry. apply app_nil_r.
  - exists []. symmetry. apply app_nil_r.
Qed.

(** A load stays in flight until its own settlement. *)
Lemma step_pending (c : Comp) (e : Event) (i : nat) (ld : Load) :
  pending c !! i = Some (Some ld) ->
  (forall r, e <> Settle i r) ->
  pending (step c e) !! i = Some (Some ld).
Proof.
  intros Hi Hne. destruct e as [p | | j r | s]; cbn.
  - destruct (render_pending p c) as [l ->].
    apply lookup_app_l_Some. exact Hi.
  - unfold unmount. destruct (lifecycle c); try exact Hi.
    cbn. destruct (cleanup c); exact Hi.
  - unfold settle. destruct (pending c !! j) as [[ldj|]|]; try exact Hi.
    cbn. rewrite list_lookup_insert_ne; [exact Hi |].
    intros ->. exact (Hne r eq_refl).
  - exact Hi.
Qed.

Lemma run_pending (es : list Event) (c : Comp) (i : nat) (ld : Load) :
  pending c !! i = Some (Some ld) ->
  (forall r, ~ In (Settle i r) es) ->
  pending (run es c) !! i = Some (Some ld).
Proof.
  revert c. induction es as [| e es IH]; intros c Hi Hne; [exact Hi |].
  cbn. apply IH.
  - apply step_pending; [exact Hi |].
    intros r ->. apply (Hne r). left. reflexivity.
  - intros r Hin. apply (Hne r). right. exact Hin.
Qed.

(** Settling a load in flight ends with the [.finally] callback. *)
Lemma settle_pending (c : Comp) (i : nat) (ld : Load)
  (result : option ObjectProps) :
  pending c !! i = Some (Some ld) ->
  world (settle i result c) =
    finallyCallback
      (match result with
       | Some decoded => thenCallback ld decoded (world c)
       | None => world c
       end).
Proof. intros Hi. unfold settle. rewrite Hi. reflexivity. Qed.

(** C8.  A load started by a non-empty [src] first sets the loading
    flag, then issues the decode; whenever that load settles, fulfilled
    or rejected, the last thing done is to clear the flag; a rejected
    load attaches nothing. *)
Theorem load_sets_and_clears_loading
  (p : Props) (c : Comp) (Hsrc : src p <> "") :
  let c1 := srcEffect p c in
  let i := length (pending c) in
  calls_since (world c) (world c1)
    = [store_setLoading true; FabricImage_fromURL (src p)] /\
  st_loading (store (world c1)) = true /\
  cleanup c1 = true /\
  (exists ld, pending c1 !! i = Some (Some ld) /\ ld_src ld = src p) /\
  (forall (es : list Event) (result : option ObjectProps),
     (forall r, ~ In (Settle i r) es) ->
     let c2 := run es c1 in
     let c3 := settle i result c2 in
     last (trace (world c3)) = Some (store_setLoading false) /\
     st_loading (store (world c3)) = false /\
     (result = None ->
        backgroundImageRef (world c3) = backgroundImageRef (world c2) /\
        heap (world c3) = heap (world c2) /\
        st_canvas (store (world c3)) = st_canvas (store (world c2)) /\
        calls_since (world c2) (world c3) = [store_setLoading false])).
Proof.
  cbv zeta.
  assert (Hne : String.eqb (src p) "" = false)
    by (apply String.eqb_neq; exact Hsrc).
  assert (Hld : pending (srcEffect p c) !! length (pending c)
                = Some (Some (mkLoad (src p) (options p) (params_of p)
                                (onLoad p) (st_domNode (store (world c)))))).
  { unfold srcEffect. rewrite Hne. cbn. apply list_lookup_middle.
    reflexivity. }
  split; [| split; [| split; [| split]]].
  - apply calls_since_app. unfold srcEffect. rewrite Hne. cbn.
    rewrite <- app_assoc. reflexivity.
  - unfold srcEffect. rewrite Hne. reflexivity.
  - unfold srcEffect. rewrite Hne. reflexivity.
  - eexists. split; [exact Hld | reflexivity].
  - intros es result Hes.
    pose proof (run_pending es _ _ _ Hld Hes) as Hi.
    rewrite (settle_pending _ _ _ result Hi).
    split; [| split].
    + unfold finallyCallback, setLoading. cbn. apply last_snoc.
    + reflexivity.
    + intros ->. repeat split; try reflexivity.
      apply calls_since_app. reflexivity.
Qed.

End Lifecycle.

(** C8 on a sample: [src] "a.png" over a ready canvas, then the decode
    is rejected. *)
Lemma load_sets_and_clears_loading_sample :
  calls_since
    (world (initial (Sample.state (Some Sample.canvas)) []))
    (world (settle (H := plain_object) 0 None
              (srcEffect (Sample.props "a.png")
                 (initial (Sample.state (Some Sample.canvas)) []))))
    = [store_setLoading true; FabricImage_fromURL "a.png";
       store_setLoading false] /\
  last (trace (world (settle (H := plain_object) 0 None
                        (run (H := plain_object) []
                           (srcEffect (Sample.props "a.png")
                              (initial (Sample.state (Some Sample.canvas))
                                 []))))))
    = Some (store_setLoading false).
Proof.
  assert (Hsrc : src (Sample.props "a.png") <> "") by discriminate.
  destruct (load_sets_and_clears_loading (H := plain_object)
              (Sample.props "a.png")
              (initial (Sample.state (Some Sample.canvas)) []) Hsrc)
    as (_ & _ & _ & _ & Hfin).
  destruct (Hfin [] None (fun r Hin => Hin)) as (Hlast & _).
  split; [reflexivity | exact Hlast].
Defined.

(** ** The [.then] callback *)

Section Attach.

Context `{FabricObject}.

Variables (ld : Load) (decoded : ObjectProps) (w : World) (canvas : Canvas).
Hypothesis Hcanvas : st_canvas (store w) = Some canvas.
Hypothesis Hready :
  JS.truthy (cv_width canvas) && JS.truthy (cv_height canvas) = true.

Let imageSource : nat := length (heap w).
Let entries : list (string * value) :=
  assign "objectCaching" (VBool false) (ld_options ld).
Let img : FabricImage := mkImage (ld_src ld) (set_object entries decoded).
Let canvas' : Canvas :=
  cv_with_backgroundImage imageSource (cv_with_smoothing canvas).

(** The world just before the callback calls [updateViewport]. *)
Let before_update : World :=
  mkWorld (st_with_canvas (Some canvas') (store w)) (heap w ++ [img])
          (Some imageSource)
          (trace w ++ [image_set_object imageSource entries;
                       context_smoothing;
                       canvas_assign_backgroundImage imageSource]).

Lemma thenCallback_attach :
  thenCallback ld decoded w =
    let w5 := updateViewport (ld_params ld) before_update in
    let w6 := if ld_onLoad ld then emit (props_onLoad imageSource) w5 else w5 in
    if ld_domNode ld then emit (domNode_dataset_src (ld_src ld)) w6 else w6.
Proof.
  unfold thenCallback. rewrite Hcanvas, Hready. cbn zeta.
  assert (E : with_ref (Some (length (heap w)))
                (emit (canvas_assign_backgroundImage (length (heap w)))
                   (on_canvas (cv_with_backgroundImage (length (heap w)))
                      (emit context_smoothing
                         (on_canvas cv_with_smoothing
                            (emit (image_set_object (length (heap w)) entries)
                               (with_heap (heap w ++ [img]) w))))))
              = before_update).
  { subst before_update canvas' imageSource. unfold with_ref, emit, on_canvas,
      with_store, with_heap. cbn. rewrite Hcanvas. cbn.
    repeat rewrite <- app_assoc. reflexivity. }
  subst img entries. rewrite E.
  assert (Hvt : st_canvas (store (updateViewport (ld_params ld) before_update))
                  ≫= cv_viewportTransform <> None).
  { rewrite (updateViewport_store (ld_params ld) before_update imageSource
               (mkImage (ld_src ld)
                  (set_object
                     (assign "objectCaching" (VBool false) (ld_options ld))
                     decoded))
               canvas').
    - cbn. discriminate.
    - reflexivity.
    - subst before_update imageSource. cbn. apply list_lookup_middle.
      reflexivity.
    - reflexivity. }
  destruct (st_canvas (store (updateViewport (ld_params ld) before_update))
              ≫= cv_viewportTransform); [reflexivity | contradiction].
Qed.

Lemma thenCallback_attach_ref :
  backgroundImageRef (thenCallback ld decoded w) = Some imageSource.
Proof.
  rewrite thenCallback_attach. cbn zeta.
  rewrite (updateViewport_live (ld_params ld) before_update imageSource img
             canvas'); [| reflexivity | | reflexivity].
  - destruct (ld_onLoad ld), (ld_domNode ld); reflexivity.
  - subst before_update imageSource. cbn. apply list_lookup_middle.
    reflexivity.
Qed.

Lemma thenCallback_attach_heap :
  heap (thenCallback ld decoded w) = heap w ++ [img].
Proof.
  rewrite thenCallback_attach. cbn zeta.
  rewrite (updateViewport_live (ld_params ld) before_update imageSource img
             canvas'); [| reflexivity | | reflexivity].
  - destruct (ld_onLoad ld), (ld_domNode ld); reflexivity.
  - subst before_update imageSource. cbn. apply list_lookup_middle.
    reflexivity.
Qed.

Lemma thenCallback_attach_canvas :
  exists m : TMat2D,
    st_canvas (store (thenCallback ld decoded w))
      = Some (cv_with_viewportTransform m canvas').
Proof.
  rewrite thenCallback_attach. cbn zeta.
  eexists.
  assert (E : forall w5,
             store (if ld_domNode ld
                    then emit (domNode_dataset_src (ld_src ld))
                           (if ld_onLoad ld
                            then emit (props_onLoad imageSource) w5 else w5)
                    else if ld_onLoad ld
                         then emit (props_onLoad imageSource) w5 else w5)
             = store w5)
    by (intros w5; destruct (ld_onLoad ld), (ld_domNode ld); reflexivity).
  rewrite E.
  rewrite (updateViewport_store (ld_params ld) before_update imageSource img
             canvas'); [| reflexivity | | reflexivity].
  - cbn. reflexivity.
  - subst before_update imageSource. cbn. apply list_lookup_middle.
    reflexivity.
Qed.

Lemma thenCallback_attach_trace :
  exists vp : list Call,
    Forall (fun c => is_onLoad c = false) vp /\
    trace (thenCallback ld decoded w) = trace w ++
      [image_set_object imageSource entries; context_smoothing;
       canvas_assign_backgroundImage imageSource] ++ vp ++
      (if ld_onLoad ld then [props_onLoad imageSource] else []) ++
      (if ld_domNode ld then [domNode_dataset_src (ld_src ld)] else []).
Proof.
  destruct (updateViewport_trace (ld_params ld) before_update)
    as (vp & Hvp & Hno).
  exists vp. split; [exact Hno |].
  rewrite thenCallback_attach. cbn zeta.
  assert (E : forall w5,
             trace (if ld_domNode ld
                    then emit (domNode_dataset_src (ld_src ld))
                           (if ld_onLoad ld
                            then emit (props_onLoad imageSource) w5 else w5)
                    else if ld_onLoad ld
                         then emit (props_onLoad imageSource) w5 else w5)
             = trace w5 ++
               (if ld_onLoad ld then [props_onLoad imageSource] else []) ++
               (if ld_domNode ld then [domNode_dataset_src (ld_src ld)]
                else [])).
  { intros w5. destruct (ld_onLoad ld), (ld_domNode ld); cbn;
      repeat rewrite <- app_assoc; cbn; try reflexivity.
    symmetry. apply app_nil_r. }
  rewrite E, Hvp. subst before_update. cbn.
  repeat rewrite <- app_assoc. reflexivity.
Qed.

End Attach.

Lemma filter_none {A : Type} (f : A -> bool) (l : list A) :
  Forall (fun x => f x = false) l -> List.filter f l = [].
Proof.
  induction 1 as [| x l Hx _ IH]; [reflexivity |].
  cbn. rewrite Hx. exact IH.
Qed.

Lemma thenCallback_not_ready `{FabricObject}
  (ld : Load) (decoded : ObjectProps) (w : World) :
  ready w = false -> thenCallback ld decoded w = w.
Proof.
  unfold ready, thenCallback. destruct (st_canvas (store w)) as [canvas|].
  - intros ->. reflexivity.
  - reflexivity.
Qed.

(** C6.  When a load settles and [onLoad] was passed: if the decode
    succeeded and the store has a canvas with non-zero width and height,
    the new image is attached (it is the component's image and the
    canvas's background) and [onLoad] is called exactly once, with that
    image; if the decode failed or the canvas is absent or zero-sized,
    nothing is attached, [onLoad] is not called, and the only call made
    is the clearing of the loading flag.  The guard is JavaScript's
    truthiness of the two dimensions, which for numbers other than NaN
    is being non-zero. *)
Theorem onLoad_once_per_attach `{FabricObject}
  (c : Comp) (i : nat) (ld : Load) (result : option ObjectProps)
  (Hi : pending c !! i = Some (Some ld))
  (Hcb : ld_onLoad ld = true) :
  let w := world c in
  let w' := world (settle i result c) in
  let calls := calls_since w w' in
  (is_Some result -> ready w = true ->
     backgroundImageRef w' = Some (length (heap w)) /\
     attached w' = Some (ld_src ld) /\
     background w' = Some (ld_src ld) /\
     List.filter is_onLoad calls = [props_onLoad (length (heap w))]) /\
  (result = None \/ ready w = false ->
     List.filter is_onLoad calls = [] /\
     calls = [store_setLoading false] /\
     backgroundImageRef w' = backgroundImageRef w /\
     heap w' = heap w /\
     st_canvas (store w') = st_canvas (store w)) /\
  (forall canvas : Canvas,
     st_canvas (store w) = Some canvas ->
     PrimFloat.is_nan (cv_width canvas) = false ->
     PrimFloat.is_nan (cv_height canvas) = false ->
     (ready w = true <->
      (cv_width canvas =? 0)%float = false /\
      (cv_height canvas =? 0)%float = false)) /\
  (st_canvas (store w) = None -> ready w = false).
Proof.
  cbv zeta. rewrite (settle_pending c i ld result Hi).
  split; [| split; [| split]].
  - intros [decoded ->] Hready.
    unfold ready in Hready.
    destruct (st_canvas (store (world c))) as [canvas|] eqn:Hcanvas;
      [| discriminate Hready].
    pose proof (thenCallback_attach_ref ld decoded _ canvas Hcanvas Hready)
      as Href.
    pose proof (thenCallback_attach_heap ld decoded _ canvas Hcanvas Hready)
      as Hheap.
    destruct (thenCallback_attach_canvas ld decoded _ canvas Hcanvas Hready)
      as (m & Hcv).
    destruct (thenCallback_attach_trace ld decoded _ canvas Hcanvas Hready)
      as (vp & Hvp & Htr).
    split; [| split; [| split]].
    + exact Href.
    + unfold attached. cbn. rewrite Href, Hheap. cbn.
      rewrite list_lookup_middle by reflexivity. reflexivity.
    + unfold background. cbn. rewrite Hcv, Hheap. cbn.
      rewrite list_lookup_middle by reflexivity. reflexivity.
    + erewrite calls_since_app
        by (unfold finallyCallback, setLoading; cbn; rewrite Htr;
            rewrite <- app_assoc; reflexivity).
      rewrite Hcb.
      repeat rewrite List.filter_app. cbn.
      rewrite (filter_none _ _ Hvp).
      destruct (ld_domNode ld); reflexivity.
  - intros Hdrop.
    assert (E : match result with
                | Some decoded => thenCallback ld decoded (world c)
                | None => world c
                end = world c).
    { destruct Hdrop as [-> | Hnr]; [reflexivity |].
      destruct result; [apply thenCallback_not_ready; exact Hnr | reflexivity]. }
    rewrite E.
    assert (Hc : calls_since (world c) (finallyCallback (world c))
                 = [store_setLoading false])
      by (apply calls_since_app; reflexivity).
    rewrite Hc. repeat split; reflexivity.
  - intros canvas Hcanvas Hw Hh. unfold ready. rewrite Hcanvas.
    unfold JS.truthy, PrimFloat.is_zero. rewrite Hw, Hh.
    repeat rewrite orb_false_r.
    change PrimFloat.zero with 0%float.
    destruct (cv_width canvas =? 0)%float, (cv_height canvas =? 0)%float;
      cbn; split; try tauto; try discriminate; intros [? ?]; discriminate.
  - intros Hcanvas. unfold ready. rewrite Hcanvas. reflexivity.
Qed.

(** C6 on a sample: "a.png" decodes over a canvas of 800 by 600. *)
Lemma onLoad_once_per_attach_sample :
  List.filter is_onLoad
    (calls_since
       (world (srcEffect (Sample.props "a.png")
                 (initial (Sample.state (Some Sample.canvas)) [])))
       (world (settle (H := plain_object) 0 (Some Sample.decoded)
                 (srcEffect (Sample.props "a.png")
                    (initial (Sample.state (Some Sample.canvas)) [])))))
    = [props_onLoad 0].
Proof.
  destruct (onLoad_once_per_attach (H := plain_object)
              (srcEffect (Sample.props "a.png")
                 (initial (Sample.state (Some Sample.canvas)) []))
              0 (mkLoad "a.png" [("opacity", VNum 0.5)] Sample.fit true true)
              (Some Sample.decoded) eq_refl eq_refl)
    as (Hok & _).
  destruct (Hok (ex_intro _ Sample.decoded eq_refl) eq_refl)
    as (_ & _ & _ & Hcalls).
  exact Hcalls.
Defined.

(** ** The options effect *)

Section Sync.

Context `{FabricObject}.

(** The loop over [Object.entries(options)]: one call per entry, in
    order; the store and the reference are left alone. *)
Lemma sync_loop (r : nat) (opts : list (string * value)) (w : World) :
  let w1 :=
    fold_left
      (fun w kv =>
         if String.eqb (fst kv) "angle" then rotate r (snd kv) w
         else set r (fst kv) (snd kv) w)
      opts w in
  trace w1 = trace w ++ map (sync_call r) opts /\
  store w1 = store w /\
  backgroundImageRef w1 = backgroundImageRef w.
Proof.
  cbv zeta. revert w.
  induction opts as [| kv opts IH]; intros w.
  - cbn. rewrite app_nil_r. repeat split.
  - cbn [fold_left map].
    destruct (IH (if String.eqb (fst kv) "angle" then rotate r (snd kv) w
                  else set r (fst kv) (snd kv) w)) as (Ht & Hs & Hr).
    rewrite Ht, Hs, Hr. unfold sync_call at 2.
    destruct (String.eqb (fst kv) "angle"); cbn;
      rewrite <- app_assoc; repeat split.
Qed.

Lemma alter_alter {A : Type} (f g : A -> A) (i : nat) (l : list A) :
  alter f i (alter g i l) = alter (fun x => f (g x)) i l.
Proof.
  revert i. induction l as [| x l IH]; intros [| i]; cbn; try reflexivity.
  f_equal. apply IH.
Qed.

(** The loop leaves the heap with the attached image's visual state
    replaced by the options applied to it. *)
Lemma sync_loop_alter (r : nat) (opts : list (string * value)) (w : World) :
  heap
    (fold_left
       (fun w kv =>
          if String.eqb (fst kv) "angle" then rotate r (snd kv) w
          else set r (fst kv) (snd kv) w)
       opts w)
  = alter (fun img => mkImage (img_src img)
                              (apply_options opts (img_props img)))
          r (heap w).
Proof.
  revert w. induction opts as [| kv opts IH]; intros w.
  - cbn. symmetry. apply list_alter_id. intros [a b]. reflexivity.
  - cbn [fold_left]. rewrite IH.
    destruct (String.eqb (fst kv) "angle") eqn:E; cbn;
      rewrite alter_alter; apply list_alter_ext; try reflexivity;
      intros x _; unfold apply_options; cbn; rewrite E; reflexivity.
Qed.

Lemma render_ends_with_sync (p : Props) (c : Comp) :
  lifecycle c = Mounted ->
  world (render p c)
    = optionsSync (options p) (world (effects_before_sync p c)).
Proof. intros Hl. unfold render. rewrite Hl. reflexivity. Qed.

(** C7, amended.  On every render after the first the options effect
    runs last, after that render's teardown, viewport effect and [src]
    effect.  If an image is attached at that point, every property of
    the render's options (so each one whose value changed) is applied to
    the attached image in order, the angle through [rotate] and any
    other through [set]: the calls are made and the image object holds
    the result; one re-render request follows as the last call when the
    store has a canvas, and none is made when it has not.  If no image
    is attached the effect changes nothing.  When neither [src] nor the
    viewport dependencies changed, the options effect is all that the
    render runs. *)
Theorem optionsSync_applies_each (p : Props) (c : Comp)
  (Hl : lifecycle c = Mounted) :
  let w3 := world (effects_before_sync p c) in
  let w' := world (render p c) in
  let calls := calls_since w3 w' in
  w' = optionsSync (options p) w3 /\
  (last_src c = src p -> last_deps c = deps_of p c -> w3 = world c) /\
  (forall r : nat,
     backgroundImageRef w3 = Some r ->
     calls =
       map (sync_call r) (options p) ++
       match st_canvas (store w3) with
       | Some _ => [canvas_requestRenderAll]
       | None => []
       end /\
     heap w' =
       alter (fun img => mkImage (img_src img)
                                 (apply_options (options p) (img_props img)))
             r (heap w3) /\
     (forall (prev : list (string * value)) (k : string) (v : value),
        In (k, v) (options p) -> ~ In (k, v) prev ->
        In (if String.eqb k "angle" then image_rotate r v
            else image_set r k v) calls) /\
     (forall canvas : Canvas,
        st_canvas (store w3) = Some canvas ->
        List.filter is_requestRenderAll calls = [canvas_requestRenderAll] /\
        last calls = Some canvas_requestRenderAll) /\
     (st_canvas (store w3) = None ->
        List.filter is_requestRenderAll calls = [])) /\
  (backgroundImageRef w3 = None -> w' = w3 /\ calls = []).
Proof.
  cbv zeta. rewrite (render_ends_with_sync p c Hl).
  set (w3 := world (effects_before_sync p c)).
  assert (Hno : forall r, List.filter is_requestRenderAll
                            (map (sync_call r) (options p)) = []).
  { intros r. apply filter_none. apply List.Forall_forall. intros x Hx.
    apply in_map_iff in Hx. destruct Hx as (kv & <- & _).
    unfold sync_call. destruct (String.eqb (fst kv) "angle"); reflexivity. }
  split; [reflexivity | split; [| split]].
  - intros Hs Hd. subst w3. unfold effects_before_sync.
    rewrite Hs, Hd, String.eqb_refl.
    assert (Hsame : same_deps (deps_of p c) (deps_of p c) = true).
    { destruct (deps_of p c) as [[[a b] f] g]. cbn. unfold JS.same.
      assert (L : forall x : float, PrimFloat.Leibniz.eqb x x = true)
        by (intros x; apply FloatAxioms.Leibniz.eqb_spec; reflexivity).
      rewrite !L. destruct f, g; reflexivity. }
    rewrite Hsame. reflexivity.
  - intros r Href.
    destruct (sync_loop r (options p) w3) as (Ht & _ & _).
    pose proof (sync_loop_alter r (options p) w3) as Hh.
    assert (E : calls_since w3 (optionsSync (options p) w3)
                = map (sync_call r) (options p) ++
                  match st_canvas (store w3) with
                  | Some _ => [canvas_requestRenderAll]
                  | None => []
                  end).
    { apply calls_since_app. unfold optionsSync. rewrite Href.
      destruct (st_canvas (store w3)).
      - unfold requestRenderAll. cbn. rewrite Ht, <- app_assoc. reflexivity.
      - rewrite Ht, app_nil_r. reflexivity. }
    rewrite E. split; [reflexivity | split; [| split; [| split]]].
    + unfold optionsSync. rewrite Href.
      destruct (st_canvas (store w3)); cbn; exact Hh.
    + intros prev k v Hin _. apply in_or_app. left.
      change (if String.eqb k "angle" then image_rotate r v
              else image_set r k v) with (sync_call r (k, v)).
      apply in_map. exact Hin.
    + intros canvas Hc. rewrite Hc. split.
      * rewrite List.filter_app, Hno. reflexivity.
      * apply last_snoc.
    + intros Hc. rewrite Hc, app_nil_r. apply Hno.
  - intros Href. unfold optionsSync. rewrite Href.
    split; [reflexivity | apply calls_since_refl].
Qed.

End Sync.

(** C7, as stated, fails: the race sample renders again with another
    opacity while the image of "b.png" is attached and the store has no
    canvas; the opacity is set on the image and no re-render is
    requested. *)
Lemma optionsSync_without_canvas :
  lifecycle Scenario.without_canvas = Mounted /\
  attached (world Scenario.without_canvas) = Some "b.png" /\
  entry "opacity" (options Scenario.dimmer) = Some (VNum 0.25) /\
  entry "opacity" (options (Sample.props "b.png")) = Some (VNum 0.5) /\
  calls_since (world Scenario.without_canvas)
    (world (render (H := plain_object) Scenario.dimmer
              Scenario.without_canvas))
    = [image_set 0 "opacity" (VNum 0.25)] /\
  ~ In canvas_requestRenderAll
      (calls_since (world Scenario.without_canvas)
         (world (render (H := plain_object) Scenario.dimmer
                   Scenario.without_canvas))).
Proof.
  vm_compute. repeat split.
  intros [E | []]. discriminate E.
Qed.

(** The amended C7 on a sample: an opacity and an angle over the image
    attached in the race sample. *)
Lemma optionsSync_applies_each_sample :
  calls_since
    (world (effects_before_sync
              (mkProps "b.png" true true false
                       [("opacity", VNum 0.25); ("angle", VNum 90)])
              Sample.mount_a_then_b))
    (world (render (H := plain_object)
              (mkProps "b.png" true true false
                       [("opacity", VNum 0.25); ("angle", VNum 90)])
              Sample.mount_a_then_b))
    = [image_set 0 "opacity" (VNum 0.25); image_rotate 0 (VNum 90);
       canvas_requestRenderAll].
Proof.
  destruct (optionsSync_applies_each (H := plain_object)
              (mkProps "b.png" true true false
                       [("opacity", VNum 0.25); ("angle", VNum 90)])
              Sample.mount_a_then_b eq_refl)
    as (_ & _ & Hrun & _).
  destruct (Hrun 0 eq_refl) as (Hcalls & _).
  exact Hcalls.
Defined.

(** ** Teardown *)

(** C5, as stated, fails twice over on the race of two loads.  The
    component unmounts while the image of "b.png" is attached; the
    teardown calls [remove], which takes an object out of the canvas's
    collection and leaves [backgroundImage] alone, so the canvas still
    shows "b.png"; and the load of "a.png", still in flight, then
    settles and writes the zoom fields and the loading flag to the store
    of an unmounted component. *)
Lemma unmount_then_stale_load_writes :
  attached (world Sample.mount_a_then_b) = Some "b.png" /\
  lifecycle (unmount Sample.mount_a_then_b) = Unmounted /\
  background (world (unmount Sample.mount_a_then_b)) = Some "b.png" /\
  List.filter is_store_write
    (calls_since
       (world (unmount Sample.mount_a_then_b))
       (world (settle (H := plain_object) 0 (Some Sample.decoded)
                 (unmount Sample.mount_a_then_b))))
    = [store_setState 2 1 2; store_setLoading false].
Proof. vm_compute. repeat split. Qed.

Lemma updateViewport_no_ref (params : Params) (w : World) :
  backgroundImageRef w = None -> updateViewport params w = w.
Proof. intros E. unfold updateViewport. rewrite E. reflexivity. Qed.

Section Teardown.

Context `{FabricObject}.

Lemma optionsSync_no_ref (opts : list (string * value)) (w : World) :
  backgroundImageRef w = None -> optionsSync opts w = w.
Proof. intros E. unfold optionsSync. rewrite E. reflexivity. Qed.

(** Once unmounted with no load in flight, no event makes the component
    call anything. *)
Lemma step_quiet (c : Comp) (e : Event) :
  lifecycle c = Unmounted -> all_settled c ->
  trace (world (step c e)) = trace (world c) /\
  lifecycle (step c e) = Unmounted /\
  all_settled (step c e).
Proof.
  intros Hl Hp. destruct e as [p | | i r | s]; cbn.
  - unfold render. rewrite Hl. repeat split; assumption.
  - unfold unmount. rewrite Hl. repeat split; assumption.
  - unfold settle.
    destruct (pending c !! i) as [[ld|]|] eqn:Hi;
      try (repeat split; assumption).
    unfold all_settled in Hp. rewrite Forall_lookup in Hp.
    discriminate (Hp i (Some ld) Hi).
  - repeat split; assumption.
Qed.

Lemma run_quiet (es : list Event) (c : Comp) :
  lifecycle c = Unmounted -> all_settled c ->
  trace (world (run es c)) = trace (world c).
Proof.
  revert c. induction es as [| e es IH]; intros c Hl Hp; [reflexivity |].
  change (run (e :: es) c) with (run es (step c e)).
  destruct (step_quiet c e Hl Hp) as (Ht & Hl' & Hp').
  rewrite (IH _ Hl' Hp'). exact Ht.
Qed.

(** The teardown of a component whose last run of the [src] effect
    registered a cleanup. *)
Lemma teardown_registered
  (c : Comp) (r : nat) (canvas : Canvas)
  (Hl : lifecycle c = Mounted) (Hcl : cleanup c = true)
  (Href : backgroundImageRef (world c) = Some r)
  (Hcanvas : st_canvas (store (world c)) = Some canvas) :
  let teardown :=
    canvas_remove r :: (if cv_element canvas then [canvas_renderAll] else []) in
  (calls_since (world c) (srcCleanup (world c)) = teardown /\
   backgroundImageRef (srcCleanup (world c)) = None) /\
  (forall p : Props,
     src p <> last_src c ->
     calls_since (world c) (world (render p c)) =
       teardown ++
       (if String.eqb (src p) "" then []
        else [store_setLoading true; FabricImage_fromURL (src p)]) /\
     backgroundImageRef (world (render p c)) = None) /\
  (world (unmount c) = srcCleanup (world c) /\
   lifecycle (unmount c) = Unmounted /\
   List.filter is_store_write (calls_since (world c) (world (unmount c)))
     = []) /\
  (all_settled c ->
   forall es : list Event,
     calls_since (world (unmount c)) (world (run es (unmount c))) = []) /\
  (forall (i : nat) (ld : Load) (result : option ObjectProps),
     pending c !! i = Some (Some ld) ->
     last (calls_since (world (unmount c))
             (world (settle i result (unmount c))))
       = Some (store_setLoading false)).
Proof.
  cbv zeta.
  assert (Hclean :
            srcCleanup (world c) =
              mkWorld
                (st_with_canvas
                   (Some (cv_with_objects
                            (filter (fun x => x ≠ r) (cv_objects canvas))
                            canvas))
                   (store (world c)))
                (heap (world c)) None
                (trace (world c) ++
                   canvas_remove r ::
                   (if cv_element canvas then [canvas_renderAll] else []))).
  { unfold srcCleanup. rewrite Href, Hcanvas.
    unfold renderAll, remove, with_ref, emit, on_canvas, with_store. cbn.
    rewrite Hcanvas. cbn.
    destruct (cv_element canvas); cbn; [rewrite <- app_assoc |]; reflexivity. }
  assert (Hun : world (unmount c) = srcCleanup (world c))
    by (unfold unmount; rewrite Hl, Hcl; reflexivity).
  assert (Hunl : lifecycle (unmount c) = Unmounted)
    by (unfold unmount; rewrite Hl; reflexivity).
  assert (Hunp : pending (unmount c) = pending c)
    by (unfold unmount; rewrite Hl, Hcl; reflexivity).
  split; [| split; [| split; [| split]]].
  - split.
    + apply calls_since_app. rewrite Hclean. reflexivity.
    + rewrite Hclean. reflexivity.
  - intros p Hsrc.
    assert (Hne : String.eqb (last_src c) (src p) = false)
      by (apply String.eqb_neq; intros E; apply Hsrc; symmetry; exact E).
    unfold render. rewrite Hl, Hne, Hcl. cbn [negb andb].
    set (c1 := on_world srcCleanup c).
    assert (Hc1 : world c1 = srcCleanup (world c)) by reflexivity.
    set (c2 := if negb (same_deps _ _) then _ else c1).
    assert (Hc2 : world c2 = srcCleanup (world c)).
    { subst c2. destruct (negb (same_deps _ _)); [| exact Hc1].
      cbn. apply updateViewport_no_ref. rewrite Hclean. reflexivity. }
    cbn. unfold srcEffect.
    destruct (String.eqb (src p) ""); cbn; rewrite Hc2.
    + rewrite optionsSync_no_ref by (rewrite Hclean; reflexivity).
      split; [| rewrite Hclean; reflexivity].
      apply calls_since_app. rewrite Hclean. cbn. rewrite app_nil_r.
      reflexivity.
    + rewrite optionsSync_no_ref by (rewrite Hclean; reflexivity).
      split; [| rewrite Hclean; reflexivity].
      apply calls_since_app. rewrite Hclean. cbn.
      repeat rewrite <- app_assoc. cbn.
      destruct (cv_element canvas); reflexivity.
  - split; [exact Hun | split; [exact Hunl |]].
    rewrite Hun.
    erewrite calls_since_app by (rewrite Hclean; reflexivity).
    destruct (cv_element canvas); reflexivity.
  - intros Hp es. apply calls_since_app. rewrite app_nil_r.
    apply run_quiet; [exact Hunl |].
    unfold all_settled. rewrite Hunp. exact Hp.
  - intros i ld result Hi.
    assert (Hi' : pending (unmount c) !! i = Some (Some ld))
      by (rewrite Hunp; exact Hi).
    rewrite (settle_pending _ i ld result Hi').
    destruct result as [decoded |].
    + set (w := world (unmount c)).
      destruct (ready w) eqn:Hr.
      * unfold ready in Hr.
        destruct (st_canvas (store w)) as [cv|] eqn:Hcv; [| discriminate Hr].
        destruct (thenCallback_attach_trace ld decoded w cv Hcv Hr)
          as (vp & _ & Htr).
        erewrite calls_since_app
          by (unfold finallyCallback, setLoading; cbn; rewrite Htr;
              rewrite <- app_assoc; reflexivity).
        apply last_snoc.
      * rewrite (thenCallback_not_ready ld decoded w Hr).
        erewrite calls_since_app by reflexivity. reflexivity.
    + erewrite calls_since_app by reflexivity. reflexivity.
Qed.

End Teardown.

(** ** The race of two loads *)


Section Race.

Context `{FabricObject}.

(** A settlement over a ready canvas: a fulfilled load attaches its own
    image, whatever [src] the component has by then; a rejected one
    leaves the attached image as it was. *)
Lemma settle_attached (c : Comp) (i : nat) (ld : Load)
  (result : option ObjectProps) :
  pending c !! i = Some (Some ld) ->
  ready (world c) = true ->
  attached (world (settle i result c)) =
    match result with
    | Some _ => Some (ld_src ld)
    | None => attached (world c)
    end /\
  ready (world (settle i result c)) = true /\
  pending (settle i result c) = <[i := None]> (pending c).
Proof.
  intros Hi Hready.
  assert (Hp : pending (settle i result c) = <[i := None]> (pending c))
    by (unfold settle; rewrite Hi; reflexivity).
  rewrite (settle_pending c i ld result Hi).
  destruct result as [decoded |].
  - pose proof Hready as Hr. unfold ready in Hr.
    destruct (st_canvas (store (world c))) as [canvas|] eqn:Hcanvas;
      [| discriminate Hr].
    pose proof (thenCallback_attach_ref ld decoded _ canvas Hcanvas Hr)
      as Href.
    pose proof (thenCallback_attach_heap ld decoded _ canvas Hcanvas Hr)
      as Hheap.
    destruct (thenCallback_attach_canvas ld decoded _ canvas Hcanvas Hr)
      as (m & Hcv).
    split; [| split; [| exact Hp]].
    + unfold attached. cbn. rewrite Href, Hheap. cbn.
      rewrite list_lookup_middle by reflexivity. reflexivity.
    + unfold ready. cbn. rewrite Hcv. exact Hr.
  - split; [| split; [| exact Hp]].
    + reflexivity.
    + unfold ready in *. cbn.
      destruct (st_canvas (store (world c))); [exact Hready | discriminate].
Qed.

(** A render of a component that holds no image: it still holds none,
    the canvas is as ready as before, and a new non-empty [src] puts one
    load in flight, for that [src]. *)
Lemma render_no_ref (p : Props) (c : Comp) :
  backgroundImageRef (world c) = None ->
  (lifecycle c = Fresh \/ (lifecycle c = Mounted /\ last_src c <> src p)) ->
  src p <> "" ->
  backgroundImageRef (world (render p c)) = None /\
  ready (world (render p c)) = ready (world c) /\
  lifecycle (render p c) = Mounted /\
  last_src (render p c) = src p /\
  exists ld, pending (render p c) = pending c ++ [Some ld] /\
             ld_src ld = src p.
Proof.
  intros Href Hl Hsrc.
  assert (Hne : String.eqb (src p) "" = false)
    by (apply String.eqb_neq; exact Hsrc).
  destruct c as [[[sw sh sc mz dc dn lo fz zo] h ref tr] l ls ld cl pe].
  cbn in *. subst ref.
  destruct Hl as [-> | [-> Hls]].
  - unfold render, srcEffect. cbn. rewrite Hne. cbn.
    repeat split. eexists. split; reflexivity.
  - assert (Hne2 : String.eqb ls (src p) = false)
      by (apply String.eqb_neq; exact Hls).
    unfold render, srcEffect, srcCleanup, ready. cbn. rewrite Hne2. cbn.
    destruct cl, (same_deps ld _), sc as [cv|]; cbn;
      try (destruct (cv_element cv); cbn); rewrite ?Hne; cbn;
      repeat split; eexists; split; reflexivity.
Qed.

End Race.

(** * Further properties *)

(** ** Fit against cover *)

Lemma SFcompare_antisym (a b : spec_float) :
  SFcompare a b = Some Gt -> SFcompare b a = Some Lt.
Proof.
  destruct a as [sa | sa | | sa ma ea], b as [sb | sb | | sb mb eb]; cbn;
    try discriminate; try (destruct sa; discriminate || reflexivity);
    try (destruct sb; discriminate || reflexivity);
    try (destruct sa, sb; discriminate || reflexivity).
  pose proof (Pos.compare_cont_antisym mb ma Eq) as A. cbn in A.
  destruct sa, sb; try discriminate; try reflexivity;
    rewrite (Z.compare_antisym ea eb);
    destruct (ea ?= eb)%Z eqn:E; cbn; try discriminate; try reflexivity;
    rewrite <- A;
    destruct (Pos.compare_cont Eq mb ma); cbn; discriminate || reflexivity.
Qed.

Lemma Prim2SF_not_nan (x : float) :
  PrimFloat.is_nan x = false -> Prim2SF x <> S754_nan.
Proof.
  unfold PrimFloat.is_nan. rewrite FloatAxioms.eqb_spec. intros E N.
  rewrite N in E. discriminate E.
Qed.

Lemma SFcompare_some (a b : spec_float) :
  a <> S754_nan -> b <> S754_nan -> exists c, SFcompare a b = Some c.
Proof.
  intros Ha Hb. destruct a, b; try contradiction; cbn; eexists; reflexivity.
Qed.

Lemma leb_of_not_ltb (x y : float) :
  PrimFloat.is_nan x = false -> PrimFloat.is_nan y = false ->
  (y <? x)%float = false -> (x <=? y)%float = true.
Proof.
  intros Hx Hy. rewrite FloatAxioms.ltb_spec, FloatAxioms.leb_spec.
  unfold SFltb, SFleb.
  destruct (SFcompare_some (Prim2SF x) (Prim2SF y)) as [c Hc];
    [apply Prim2SF_not_nan; exact Hx | apply Prim2SF_not_nan; exact Hy |].
  rewrite Hc. destruct c; try reflexivity.
  rewrite (SFcompare_antisym _ _ Hc). discriminate.
Qed.

Lemma leb_refl_not_nan (z : float) :
  PrimFloat.is_nan z = false -> (z <=? z)%float = true.
Proof.
  intros Hz. apply leb_of_not_ltb; try exact Hz.
  rewrite FloatAxioms.ltb_spec. unfold SFltb.
  unfold PrimFloat.is_nan in Hz. rewrite FloatAxioms.eqb_spec in Hz.
  unfold SFeqb in Hz.
  destruct (SFcompare _ _) as [[]|]; discriminate || reflexivity.
Qed.

Lemma Math_min_le_max (x y : float) :
  PrimFloat.is_nan x = false -> PrimFloat.is_nan y = false ->
  (JS.Math_min x y <=? JS.Math_max x y)%float = true.
Proof.
  intros Hx Hy. unfold JS.Math_min, JS.Math_max. rewrite Hx, Hy. cbn.
  destruct (x <? y)%float eqn:Exy.
  - rewrite FloatAxioms.leb_spec. rewrite FloatAxioms.ltb_spec in Exy.
    unfold SFleb, SFltb in *.
    destruct (SFcompare _ _) as [[]|]; discriminate || reflexivity.
  - destruct (y <? x)%float eqn:Eyx.
    + rewrite FloatAxioms.leb_spec. rewrite FloatAxioms.ltb_spec in Eyx.
      unfold SFleb, SFltb in *.
      destruct (SFcompare (Prim2SF y) _) as [[]|];
        discriminate || reflexivity.
    + destruct (classify x); try (apply leb_of_not_ltb; assumption);
        try (apply leb_refl_not_nan; assumption).
Qed.

Lemma Math_min_selects (x y : float) :
  PrimFloat.is_nan x = false -> PrimFloat.is_nan y = false ->
  JS.Math_min x y = x \/ JS.Math_min x y = y.
Proof.
  intros Hx Hy. unfold JS.Math_min. rewrite Hx, Hy. cbn.
  destruct (x <? y)%float; [left; reflexivity |].
  destruct (y <? x)%float; [right; reflexivity |].
  destruct (classify x); (left; reflexivity) || (right; reflexivity).
Qed.

Lemma Math_max_selects (x y : float) :
  PrimFloat.is_nan x = false -> PrimFloat.is_nan y = false ->
  JS.Math_max x y = x \/ JS.Math_max x y = y.
Proof.
  intros Hx Hy. unfold JS.Math_max. rewrite Hx, Hy. cbn.
  destruct (x <? y)%float; [right; reflexivity |].
  destruct (y <? x)%float; [left; reflexivity |].
  destruct (classify x); (left; reflexivity) || (right; reflexivity).
Qed.

(** X1.  When neither ratio canvas/image is NaN, the fit zoom and the
    cover zoom are each one of the two ratios, and the fit zoom never
    exceeds the cover zoom. *)
Theorem fit_never_exceeds_cover
  (img : FabricImage) (canvas : Canvas) (other : bool)
  (HW : PrimFloat.is_nan
          (cv_width canvas / op_width (img_props img))%float = false)
  (HH : PrimFloat.is_nan
          (cv_height canvas / op_height (img_props img))%float = false) :
  let rx := (cv_width canvas / op_width (img_props img))%float in
  let ry := (cv_height canvas / op_height (img_props img))%float in
  let fit := fitZoom_of (mkParams true other) img canvas in
  let cover := fitZoom_of (mkParams false true) img canvas in
  (fit = rx \/ fit = ry) /\ (cover = rx \/ cover = ry) /\
  (fit <=? cover)%float = true.
Proof.
  cbv zeta. unfold fitZoom_of, findScaleToFit, findScaleToCover. cbn.
  split; [| split].
  - apply Math_min_selects; assumption.
  - apply Math_max_selects; assumption.
  - apply Math_min_le_max; assumption.
Qed.

Lemma fit_never_exceeds_cover_sample :
  (fitZoom_of Sample.fit (mkImage "a.png" Sample.decoded) Sample.canvas
   <=? fitZoom_of Sample.cover (mkImage "a.png" Sample.decoded)
         Sample.canvas)%float = true.
Proof.
  destruct (fit_never_exceeds_cover (mkImage "a.png" Sample.decoded)
              Sample.canvas false eq_refl eq_refl) as (_ & _ & Hle).
  exact Hle.
Defined.

(** ** What the viewport update leaves alone *)

Lemma updateViewport_heap_ref (params : Params) (w : World) :
  heap (updateViewport params w) = heap w /\
  backgroundImageRef (updateViewport params w) = backgroundImageRef w.
Proof.
  unfold updateViewport.
  destruct (backgroundImageRef w) as [r|] eqn:Href;
    [| split; [reflexivity | exact Href]].
  destruct (st_canvas (store w)) as [canvas|];
    [| split; [reflexivity | exact Href]].
  destruct (heap w !! r) as [img|]; [| split; [reflexivity | exact Href]].
  destruct (centering _ _ _ _) as [dx dy]. split; [reflexivity | exact Href].
Qed.


Lemma srcCleanup_ref_none (w : World) :
  backgroundImageRef (srcCleanup w) = None.
Proof.
  unfold srcCleanup.
  destruct (backgroundImageRef w) as [r|] eqn:Href,
           (st_canvas (store w)) as [canvas|];
    try destruct (cv_element canvas); cbn; reflexivity || exact Href.
Qed.


(** X2.  The viewport update never touches the heap of images, the
    component's reference, the canvas's size, background image, objects
    or smoothing, nor the store's size, centring flag, DOM node or
    loading flag: it only assigns the viewport transform and the three
    zoom fields. *)
Theorem updateViewport_frame (params : Params) (w : World) :
  heap (updateViewport params w) = heap w /\
  backgroundImageRef (updateViewport params w) = backgroundImageRef w /\
  store_frame (store (updateViewport params w)) = store_frame (store w).
Proof.
  unfold updateViewport.
  destruct (backgroundImageRef w) as [r|] eqn:Href;
    [| split; [| split]; reflexivity || exact Href].
  destruct (st_canvas (store w)) as [canvas|] eqn:Hcanvas;
    [| split; [| split]; reflexivity || exact Href].
  destruct (heap w !! r) as [img|];
    [| split; [| split]; reflexivity || exact Href].
  destruct (centering _ _ _ _) as [dx dy]. cbn.
  split; [reflexivity | split; [exact Href |]].
  unfold store_frame. cbn. rewrite Hcanvas. reflexivity.
Qed.

(** X3.  Of two viewport updates in a row the later one decides: the
    store and the canvas end as if only the second had run; in
    particular the update is idempotent. *)
Theorem updateViewport_last_wins (p1 p2 : Params) (w : World) :
  store (updateViewport p2 (updateViewport p1 w))
    = store (updateViewport p2 w) /\
  store (updateViewport p1 (updateViewport p1 w))
    = store (updateViewport p1 w).
Proof.
  assert (G : forall q1 q2,
             store (updateViewport q2 (updateViewport q1 w))
             = store (updateViewport q2 w)).
  { intros q1 q2.
    destruct (backgroundImageRef w) as [r|] eqn:Href;
      [| rewrite (updateViewport_no_ref q1 w Href); reflexivity].
    destruct (st_canvas (store w)) as [canvas|] eqn:Hcanvas;
      [| unfold updateViewport at 2; rewrite Href, Hcanvas; reflexivity].
    destruct (heap w !! r) as [img|] eqn:Himg;
      [| unfold updateViewport at 2; rewrite Href, Hcanvas, Himg;
         reflexivity].
    destruct (updateViewport_heap_ref q1 w) as (Hh & Hr).
    pose proof (updateViewport_store q1 w r img canvas Href Himg Hcanvas)
      as Hs1.
    rewrite (updateViewport_store q2 (updateViewport q1 w) r img
               (cv_with_viewportTransform
                  (Mat (fitZoom_of q1 img canvas
                        * default 1 (st_manualZoom (store w)))
                       0 0
                       (fitZoom_of q1 img canvas
                        * default 1 (st_manualZoom (store w)))
                       (fst (centering (st_defaultCentered (store w)) canvas
                               (cv_backgroundImage canvas
                                  ≫= (fun b => heap w !! b))
                               (fitZoom_of q1 img canvas
                                * default 1 (st_manualZoom (store w)))))
                       (snd (centering (st_defaultCentered (store w)) canvas
                               (cv_backgroundImage canvas
                                  ≫= (fun b => heap w !! b))
                               (fitZoom_of q1 img canvas
                                * default 1 (st_manualZoom (store w))))))%float
                  canvas));
      [| rewrite Hr; exact Href | rewrite Hh; exact Himg
       | rewrite Hs1; reflexivity].
    rewrite (updateViewport_store q2 w r img canvas Href Himg Hcanvas).
    rewrite Hh, Hs1. reflexivity. }
  split; apply G.
Qed.

(** ** Renders *)

Lemma updateViewport_trace_update (params : Params) (w : World) :
  exists l, trace (updateViewport params w) = trace w ++ l /\
            Forall (fun c => is_update_call c = true) l.
Proof.
  unfold updateViewport.
  destruct (backgroundImageRef w) as [r|];
    [| exists []; split; [symmetry; apply app_nil_r | constructor]].
  destruct (st_canvas (store w)) as [canvas|];
    [| exists []; split; [symmetry; apply app_nil_r | constructor]].
  destruct (heap w !! r) as [img|];
    [| exists []; split; [symmetry; apply app_nil_r | constructor]].
  destruct (centering _ _ _ _) as [dx dy]. cbn.
  eexists. split.
  - repeat rewrite <- app_assoc. cbn. reflexivity.
  - repeat constructor.
Qed.

Lemma optionsSync_trace_update `{FabricObject}
  (opts : list (string * value)) (w : World) :
  exists l, trace (optionsSync opts w) = trace w ++ l /\
            Forall (fun c => is_update_call c = true) l.
Proof.
  unfold optionsSync.
  destruct (backgroundImageRef w) as [r|];
    [| exists []; split; [symmetry; apply app_nil_r | constructor]].
  destruct (sync_loop r opts w) as (Ht & _ & _).
  assert (Hm : Forall (fun c => is_update_call c = true)
                      (map (sync_call r) opts)).
  { apply List.Forall_forall. intros x Hx.
    apply in_map_iff in Hx. destruct Hx as (kv & <- & _).
    unfold sync_call. destruct (String.eqb (fst kv) "angle"); reflexivity. }
  destruct (st_canvas (store w)).
  - exists (map (sync_call r) opts ++ [canvas_requestRenderAll]). split.
    + unfold requestRenderAll. cbn. rewrite Ht, <- app_assoc. reflexivity.
    + apply Forall_app. split; [exact Hm | repeat constructor].
  - exists (map (sync_call r) opts). split; [exact Ht | exact Hm].
Qed.

(** X4.  Mounting never touches the canvas: no image is held yet, so the
    viewport effect does nothing, and the only calls are those that
    start the load (none with an empty [src]); the heap and the
    reference are as before and only the loading flag of the store can
    change. *)
Theorem mount_only_starts_load `{FabricObject}
  (p : Props) (s : ReactFabricState) (h : list FabricImage) :
  let c := render p (initial s h) in
  calls_since (world (initial s h)) (world c) =
    (if String.eqb (src p) "" then []
     else [store_setLoading true; FabricImage_fromURL (src p)]) /\
  store (world c) =
    (if String.eqb (src p) "" then s else st_with_loading true s) /\
  heap (world c) = h /\
  backgroundImageRef (world c) = None /\
  lifecycle c = Mounted /\
  cleanup c = negb (String.eqb (src p) "").
Proof.
  cbv zeta. unfold render, srcEffect. cbn.
  destruct (String.eqb (src p) ""); cbn; repeat split.
Qed.

(** X5.  A render that keeps [src] neither starts a load nor tears
    anything down: the loads in flight and the registered cleanup are
    untouched, and every call it makes belongs to the viewport update or
    to the options effect. *)
Theorem render_same_src `{FabricObject}
  (p : Props) (c : Comp)
  (Hl : lifecycle c = Mounted) (Hsrc : last_src c = src p) :
  pending (render p c) = pending c /\
  cleanup (render p c) = cleanup c /\
  Forall (fun call => is_update_call call = true)
         (calls_since (world c) (world (render p c))).
Proof.
  unfold render. rewrite Hl, Hsrc, String.eqb_refl. cbn [negb andb].
  set (c2 := if negb (same_deps _ _) then _ else c).
  assert (Hp : pending c2 = pending c)
    by (subst c2; destruct (negb (same_deps _ _)); reflexivity).
  assert (Hc : cleanup c2 = cleanup c)
    by (subst c2; destruct (negb (same_deps _ _)); reflexivity).
  assert (Ht : exists l, trace (world c2) = trace (world c) ++ l /\
                         Forall (fun call => is_update_call call = true) l).
  { subst c2. destruct (negb (same_deps _ _)).
    - cbn. apply updateViewport_trace_update.
    - exists []. split; [symmetry; apply app_nil_r | constructor]. }
  cbn. split; [exact Hp | split; [exact Hc |]].
  destruct Ht as (l1 & Ht1 & Hf1).
  destruct (optionsSync_trace_update (options p) (world c2))
    as (l2 & Ht2 & Hf2).
  erewrite calls_since_app
    by (rewrite Ht2, Ht1, <- app_assoc; reflexivity).
  apply Forall_app. split; assumption.
Qed.

Lemma render_same_src_sample :
  pending (render (H := plain_object) (Sample.props "b.png")
             Sample.mount_a_then_b)
    = pending Sample.mount_a_then_b.
Proof.
  destruct (render_same_src (H := plain_object) (Sample.props "b.png")
              Sample.mount_a_then_b eq_refl eq_refl) as (Hp & _).
  exact Hp.
Defined.

(** X6.  When [src] becomes empty while an image is attached, the
    teardown runs and the empty run registers no cleanup: a later
    unmount does nothing at all, and a later non-empty [src] starts its
    load with no teardown before it. *)
Theorem src_cleared_unregisters `{FabricObject}
  (p : Props) (c : Comp) (r : nat) (canvas : Canvas)
  (Hl : lifecycle c = Mounted) (Hcl : cleanup c = true)
  (Href : backgroundImageRef (world c) = Some r)
  (Hcanvas : st_canvas (store (world c)) = Some canvas)
  (Hempty : src p = "") (Hlast : last_src c <> "") :
  let c1 := render p c in
  cleanup c1 = false /\
  backgroundImageRef (world c1) = None /\
  pending c1 = pending c /\
  world (unmount c1) = world c1 /\
  (forall p' : Props,
     src p' <> "" ->
     calls_since (world c1) (world (render p' c1))
       = [store_setLoading true; FabricImage_fromURL (src p')]).
Proof.
  cbv zeta.
  assert (Hne : String.eqb (last_src c) (src p) = false)
    by (rewrite Hempty; apply String.eqb_neq; exact Hlast).
  assert (E : render p c =
              mkComp (srcCleanup (world c)) Mounted ""
                     (deps_of p (on_world srcCleanup c)) false (pending c)).
  { unfold render. rewrite Hl, Hne, Hcl. cbn [negb andb].
    assert (Hnr : backgroundImageRef (srcCleanup (world c)) = None).
    { unfold srcCleanup. rewrite Href, Hcanvas.
      destruct (cv_element canvas); reflexivity. }
    set (c2 := if negb (same_deps _ _) then _ else on_world srcCleanup c).
    assert (Hc2 : c2 = on_world srcCleanup c).
    { subst c2. destruct (negb (same_deps _ _)); [| reflexivity].
      unfold on_world at 1. cbn -[srcCleanup].
      rewrite (updateViewport_no_ref _ _ Hnr). reflexivity. }
    rewrite Hc2. unfold srcEffect. rewrite Hempty. cbn -[srcCleanup].
    unfold on_world, with_world. cbn -[srcCleanup optionsSync].
    rewrite (optionsSync_no_ref _ _ Hnr). unfold commit, deps_of.
    cbn -[srcCleanup]. rewrite Hempty. reflexivity. }
  assert (Hnr : backgroundImageRef (srcCleanup (world c)) = None).
  { unfold srcCleanup. rewrite Href, Hcanvas.
    destruct (cv_element canvas); reflexivity. }
  rewrite E. cbn -[srcCleanup].
  split; [reflexivity | split; [exact Hnr | split; [reflexivity | split]]].
  - reflexivity.
  - intros p' Hp'. unfold render. cbn -[srcCleanup].
    destruct (src p') as [| a rest] eqn:Es;
      [exfalso; apply Hp'; reflexivity |].
    cbn -[srcCleanup].
    destruct (negb _); unfold srcEffect; rewrite Es; cbn -[srcCleanup];
      rewrite ?(updateViewport_no_ref _ _ Hnr);
      rewrite optionsSync_no_ref by exact Hnr;
      apply calls_since_app; cbn -[srcCleanup]; rewrite <- app_assoc;
      reflexivity.
Qed.

Lemma src_cleared_unregisters_sample :
  cleanup (render (H := plain_object) (Sample.props "")
             Sample.mount_a_then_b) = false /\
  world (unmount (render (H := plain_object) (Sample.props "")
                    Sample.mount_a_then_b))
    = world (render (H := plain_object) (Sample.props "")
               Sample.mount_a_then_b).
Proof.
  assert (Hlast : last_src Sample.mount_a_then_b <> "") by discriminate.
  destruct (src_cleared_unregisters (H := plain_object) (Sample.props "")
              Sample.mount_a_then_b 0
              (mkCanvas 800 600 (Some 0) (Some (Mat 2 0 0 2 0 0)) [] true
                        true "high")
              eq_refl eq_refl eq_refl eq_refl eq_refl Hlast)
    as (Hc & _ & _ & Hu & _).
  split; [exact Hc | exact Hu].
Defined.

(** ** The teardown, whatever the state *)

(** X7.  In every state the teardown leaves the component without a
    reference and writes nothing to the store: the heap, the zoom
    fields, the loading flag and the rest of the store's own fields are
    as before.  With no canvas in the store it makes no call at all;
    with no image held it calls nothing but [renderAll], and that only
    when the canvas has an element. *)
Theorem srcCleanup_frame (w : World) :
  let w' := srcCleanup w in
  backgroundImageRef w' = None /\
  heap w' = heap w /\
  (st_width (store w'), st_height (store w'), st_manualZoom (store w'),
   st_defaultCentered (store w'), st_domNode (store w'),
   st_loading (store w'), st_fitZoom (store w'), st_zoom (store w'))
  = (st_width (store w), st_height (store w), st_manualZoom (store w),
     st_defaultCentered (store w), st_domNode (store w),
     st_loading (store w), st_fitZoom (store w), st_zoom (store w)) /\
  List.filter is_store_write (calls_since w w') = [] /\
  (st_canvas (store w) = None -> calls_since w w' = []) /\
  (backgroundImageRef w = None ->
   calls_since w w' =
     match st_canvas (store w) with
     | Some canvas => if cv_element canvas then [canvas_renderAll] else []
     | None => []
     end /\
   store w' = store w).
Proof.
  cbv zeta. unfold srcCleanup.
  destruct w as [s h ref tr]. cbn.
  destruct ref as [r|], (st_canvas s) as [canvas|] eqn:Hc; cbn;
    try rewrite Hc; cbn;
    try destruct (cv_element canvas); cbn;
    unfold calls_since; cbn;
    repeat rewrite <- app_assoc; cbn;
    rewrite ?drop_app_length, ?drop_all;
    repeat split; try discriminate; try reflexivity.
Qed.

(** ** The attach *)

Lemma entry_assign_same (key : string) (v : value)
  (o : list (string * value)) :
  entry key (assign key v o) = Some v.
Proof.
  induction o as [| [k x] t IH]; cbn.
  - rewrite String.eqb_refl. reflexivity.
  - destruct (String.eqb k key) eqn:E; cbn; rewrite E; [reflexivity | exact IH].
Qed.

Lemma entry_assign_other (key k' : string) (v : value)
  (o : list (string * value)) :
  k' <> key -> entry k' (assign key v o) = entry k' o.
Proof.
  intros Hne. induction o as [| [k x] t IH]; cbn.
  - assert (E : String.eqb key k' = false)
      by (apply String.eqb_neq; intros E; apply Hne; symmetry; exact E).
    rewrite E. reflexivity.
  - destruct (String.eqb k key) eqn:E; cbn.
    + apply String.eqb_eq in E. subst k.
      assert (E' : String.eqb key k' = false)
        by (apply String.eqb_neq; intros E; apply Hne; symmetry; exact E).
      rewrite E'. reflexivity.
    + destruct (String.eqb k k'); [reflexivity | exact IH].
Qed.

Lemma assign_length (key : string) (v : value) (o : list (string * value)) :
  length (assign key v o)
    = match entry key o with Some _ => length o | None => S (length o) end.
Proof.
  induction o as [| [k x] t IH]; cbn; [reflexivity |].
  destruct (String.eqb k key); cbn; [reflexivity |].
  rewrite IH. destruct (entry key t); reflexivity.
Qed.

(** X9.  The properties set on a newly decoded image are the caller's
    options with [objectCaching] forced to false: a caller's own
    [objectCaching] is overridden in place, every other key keeps its
    value, and no key is set twice. *)
Theorem attach_forces_objectCaching `{FabricObject}
  (ld : Load) (decoded : ObjectProps) (w : World) (canvas : Canvas)
  (Hcanvas : st_canvas (store w) = Some canvas)
  (Hready : JS.truthy (cv_width canvas) && JS.truthy (cv_height canvas)
            = true) :
  exists entries : list (string * value),
    head (calls_since w (thenCallback ld decoded w))
      = Some (image_set_object (length (heap w)) entries) /\
    entry "objectCaching" entries = Some (VBool false) /\
    (forall k, k <> "objectCaching" ->
               entry k entries = entry k (ld_options ld)) /\
    length entries =
      match entry "objectCaching" (ld_options ld) with
      | Some _ => length (ld_options ld)
      | None => S (length (ld_options ld))
      end.
Proof.
  destruct (thenCallback_attach_trace ld decoded w canvas Hcanvas Hready)
    as (vp & _ & Htr).
  exists (assign "objectCaching" (VBool false) (ld_options ld)).
  split; [| split; [| split]].
  - erewrite calls_since_app by exact Htr. reflexivity.
  - apply entry_assign_same.
  - intros k Hk. apply entry_assign_other. exact Hk.
  - apply assign_length.
Qed.

Lemma attach_forces_objectCaching_sample :
  head (calls_since (Sample.detached_world)
          (thenCallback (H := plain_object)
             (mkLoad "a.png" [("objectCaching", VBool true); ("opacity", VNum 0.5)]
                     Sample.fit true true)
             Sample.decoded Sample.detached_world))
    = Some (image_set_object 0
              [("objectCaching", VBool false); ("opacity", VNum 0.5)]).
Proof.
  destruct (attach_forces_objectCaching (H := plain_object)
              (mkLoad "a.png"
                 [("objectCaching", VBool true); ("opacity", VNum 0.5)]
                 Sample.fit true true)
              Sample.decoded Sample.detached_world Sample.canvas
              eq_refl eq_refl) as (entries & Hhead & _).
  reflexivity.
Defined.

(** X10.  A successful attach leaves the canvas and the store in step
    with the new image: the image is appended to the heap with the
    options applied, it is the canvas's background and the component's
    image, smoothing is on at high quality, the canvas keeps its size,
    and the zoom written to the store is computed from the new image as
    the options left it, with the scale flags of the render that started
    the load. *)
Theorem attach_geometry `{FabricObject}
  (ld : Load) (decoded : ObjectProps) (w : World) (canvas : Canvas)
  (Hcanvas : st_canvas (store w) = Some canvas)
  (Hready : JS.truthy (cv_width canvas) && JS.truthy (cv_height canvas)
            = true) :
  let w' := thenCallback ld decoded w in
  let r := length (heap w) in
  let img :=
    mkImage (ld_src ld)
      (set_object (assign "objectCaching" (VBool false) (ld_options ld))
                  decoded) in
  let m := default 1%float (st_manualZoom (store w)) in
  let f := fitZoom_of (ld_params ld) img canvas in
  heap w' = heap w ++ [img] /\
  backgroundImageRef w' = Some r /\
  st_fitZoom (store w') = f /\
  st_manualZoom (store w') = Some m /\
  st_zoom (store w') = (f * m)%float /\
  st_loading (store w') = st_loading (store w) /\
  exists vt : TMat2D,
    m_a vt = (f * m)%float /\ m_d vt = (f * m)%float /\
    st_canvas (store w') =
      Some (mkCanvas (cv_width canvas) (cv_height canvas) (Some r) (Some vt)
                     (cv_objects canvas) (cv_element canvas) true "high").
Proof.
  cbv zeta.
  pose proof (thenCallback_attach_heap ld decoded w canvas Hcanvas Hready)
    as Hheap.
  pose proof (thenCallback_attach_ref ld decoded w canvas Hcanvas Hready)
    as Href.
  split; [exact Hheap | split; [exact Href |]].
  rewrite (thenCallback_attach ld decoded w canvas Hcanvas Hready).
  cbv zeta.
  match goal with
  | |- context [updateViewport ?p ?w4] =>
      set (before := w4);
      assert (Hs : forall w5,
                 store (if ld_domNode ld
                        then emit (domNode_dataset_src (ld_src ld))
                               (if ld_onLoad ld
                                then emit (props_onLoad (length (heap w))) w5
                                else w5)
                        else if ld_onLoad ld
                             then emit (props_onLoad (length (heap w))) w5
                             else w5)
                 = store w5)
        by (intros w5; destruct (ld_onLoad ld), (ld_domNode ld); reflexivity)
  end.
  rewrite Hs.
  rewrite (updateViewport_store (ld_params ld) before (length (heap w))
             (mkImage (ld_src ld)
                (set_object
                   (assign "objectCaching" (VBool false) (ld_options ld))
                   decoded))
             (cv_with_backgroundImage (length (heap w))
                (cv_with_smoothing canvas)));
    [| reflexivity
     | subst before; cbn; apply list_lookup_middle; reflexivity
     | reflexivity].
  cbn. repeat split.
  eexists. split; [| split]; [| | reflexivity]; reflexivity.
Qed.

Lemma attach_geometry_sample :
  st_zoom (store (thenCallback (H := plain_object)
                    (mkLoad "a.png" [("width", VNum 200)] Sample.fit true true)
                    Sample.decoded Sample.detached_world))
    = (3 * 2)%float.
Proof.
  destruct (attach_geometry (H := plain_object)
              (mkLoad "a.png" [("width", VNum 200)] Sample.fit true true)
              Sample.decoded Sample.detached_world Sample.canvas
              eq_refl eq_refl) as (_ & _ & _ & _ & Hz & _).
  exact Hz.
Defined.

Lemma update_call_not_output (c : Call) :
  is_update_call c = true -> is_onLoad c = false /\ is_dataset c = false.
Proof. destruct c; cbn; intros E; try discriminate E; split; reflexivity. Qed.

Lemma filter_update_calls (f : Call -> bool) (l : list Call) :
  (forall c, is_update_call c = true -> f c = false) ->
  Forall (fun c => is_update_call c = true) l -> List.filter f l = [].
Proof.
  intros Hf Hl. apply filter_none.
  induction Hl as [| c l Hc _ IH]; constructor; [apply Hf; exact Hc | exact IH].
Qed.

(** X11.  When a load settles, [onLoad] is called only if it was passed
    and the image was attached, and the DOM node's [data-src] is written
    only if the node existed when the load started and the image was
    attached; what is written is the [src] of that load.  An attach
    without [onLoad] is still an attach; a rejected or dropped load
    gives neither output. *)
Theorem settle_side_outputs `{FabricObject}
  (c : Comp) (i : nat) (ld : Load) (result : option ObjectProps)
  (Hi : pending c !! i = Some (Some ld)) :
  let calls := calls_since (world c) (world (settle i result c)) in
  let attaches :=
    match result with Some _ => ready (world c) | None => false end in
  List.filter is_onLoad calls =
    (if attaches && ld_onLoad ld
     then [props_onLoad (length (heap (world c)))] else []) /\
  List.filter is_dataset calls =
    (if attaches && ld_domNode ld
     then [domNode_dataset_src (ld_src ld)] else []) /\
  (attaches = true ->
     backgroundImageRef (world (settle i result c))
       = Some (length (heap (world c)))) /\
  (attaches = false ->
     backgroundImageRef (world (settle i result c))
       = backgroundImageRef (world c)).
Proof.
  cbv zeta. rewrite (settle_pending c i ld result Hi).
  destruct result as [decoded |]; cycle 1.
  { erewrite calls_since_app by reflexivity. cbn.
    repeat split; intros; discriminate || reflexivity. }
  destruct (ready (world c)) eqn:Hr; cycle 1.
  { rewrite (thenCallback_not_ready ld decoded _ Hr).
    erewrite calls_since_app by reflexivity. cbn.
    repeat split; intros; discriminate || reflexivity. }
  unfold ready in Hr.
  destruct (st_canvas (store (world c))) as [canvas|] eqn:Hcanvas;
    [| discriminate Hr].
  pose proof (thenCallback_attach_ref ld decoded _ canvas Hcanvas Hr) as Href.
  assert (Htr : exists vp,
             Forall (fun c => is_update_call c = true) vp /\
             trace (thenCallback ld decoded (world c)) =
               trace (world c) ++
               [image_set_object (length (heap (world c)))
                  (assign "objectCaching" (VBool false) (ld_options ld));
                context_smoothing;
                canvas_assign_backgroundImage (length (heap (world c)))] ++
               vp ++
               (if ld_onLoad ld
                then [props_onLoad (length (heap (world c)))] else []) ++
               (if ld_domNode ld
                then [domNode_dataset_src (ld_src ld)] else [])).
  { rewrite (thenCallback_attach ld decoded _ canvas Hcanvas Hr). cbv zeta.
    match goal with
    | |- context [updateViewport ?p ?w4] =>
        destruct (updateViewport_trace_update p w4) as (vp & Hvp & Hf);
        remember (updateViewport p w4) as u eqn:Eu
    end.
    exists vp. split; [exact Hf |].
    destruct (ld_onLoad ld), (ld_domNode ld); cbn; rewrite Hvp; cbn;
      repeat rewrite <- app_assoc; cbn; rewrite ?app_nil_r; reflexivity. }
  destruct Htr as (vp & Hf & Htr).
  erewrite calls_since_app
    by (unfold finallyCallback, setLoading; cbn; rewrite Htr;
        rewrite <- app_assoc; reflexivity).
  cbn [andb].
  split; [| split; [| split]].
  - repeat rewrite List.filter_app. cbn.
    rewrite (filter_update_calls is_onLoad vp
               (fun c Hc => proj1 (update_call_not_output c Hc)) Hf).
    destruct (ld_onLoad ld), (ld_domNode ld); reflexivity.
  - repeat rewrite List.filter_app. cbn.
    rewrite (filter_update_calls is_dataset vp
               (fun c Hc => proj2 (update_call_not_output c Hc)) Hf).
    destruct (ld_onLoad ld), (ld_domNode ld); reflexivity.
  - intros _. exact Href.
  - discriminate.
Qed.

Lemma settle_side_outputs_sample :
  List.filter is_dataset
    (calls_since (world Sample.mount_a_then_b)
       (world (settle (H := plain_object) 0 (Some Sample.decoded)
                 Sample.mount_a_then_b)))
    = [domNode_dataset_src "a.png"].
Proof.
  destruct (settle_side_outputs (H := plain_object) Sample.mount_a_then_b 0
              (mkLoad "a.png" [("opacity", VNum 0.5)] Sample.fit true true)
              (Some Sample.decoded) eq_refl) as (_ & Hd & _).
  exact Hd.
Defined.

(** ** The loading flag *)

(** X12.  The loading flag is a plain boolean, not a count of loads:
    with two loads in flight, the settlement of one sets the flag to
    false while the other is still in flight. *)
Theorem loading_flag_is_not_a_count `{FabricObject}
  (c : Comp) (i j : nat) (ldi ldj : Load) (result : option ObjectProps)
  (Hij : i <> j)
  (Hi : pending c !! i = Some (Some ldi))
  (Hj : pending c !! j = Some (Some ldj)) :
  st_loading (store (world (settle i result c))) = false /\
  in_flight (settle i result c) j.
Proof.
  split.
  - rewrite (settle_pending c i ldi result Hi). reflexivity.
  - exists ldj.
    apply (step_pending c (Settle i result) j ldj Hj).
    intros r E. injection E as E _. apply Hij. exact E.
Qed.

Lemma loading_flag_is_not_a_count_sample :
  st_loading
    (store (world (settle (H := plain_object) 1 (Some Sample.decoded)
                     (run (H := plain_object)
                        [Render (Sample.props "a.png");
                         Render (Sample.props "b.png")]
                        (initial (Sample.state (Some Sample.canvas)) [])))))
    = false /\
  in_flight
    (settle (H := plain_object) 1 (Some Sample.decoded)
       (run (H := plain_object)
          [Render (Sample.props "a.png"); Render (Sample.props "b.png")]
          (initial (Sample.state (Some Sample.canvas)) []))) 0.
Proof.
  assert (Hne : 1 <> 0) by discriminate.
  exact (loading_flag_is_not_a_count (H := plain_object)
           (run (H := plain_object)
              [Render (Sample.props "a.png"); Render (Sample.props "b.png")]
              (initial (Sample.state (Some Sample.canvas)) []))
           1 0
           (mkLoad "b.png" [("opacity", VNum 0.5)] Sample.fit true true)
           (mkLoad "a.png" [("opacity", VNum 0.5)] Sample.fit true true)
           (Some Sample.decoded) Hne eq_refl eq_refl).
Defined.

(** ** The options effect, whatever the state *)

Lemma alter_keeps_src (f : ObjectProps -> ObjectProps) (r : nat)
  (l : list FabricImage) :
  img_src <$> alter (fun i => mkImage (img_src i) (f (img_props i))) r l
    = img_src <$> l.
Proof.
  revert r. induction l as [| x l IH]; intros [| r]; cbn;
    try reflexivity.
  f_equal. apply IH.
Qed.

Section SyncFrame.

Context `{FabricObject}.

Lemma sync_loop_heap (r : nat) (opts : list (string * value)) (w : World) :
  let w1 :=
    fold_left
      (fun w kv =>
         if String.eqb (fst kv) "angle" then rotate r (snd kv) w
         else set r (fst kv) (snd kv) w)
      opts w in
  img_src <$> heap w1 = img_src <$> heap w /\
  (forall j, j <> r -> heap w1 !! j = heap w !! j).
Proof.
  cbv zeta. revert w.
  induction opts as [| kv opts IH]; intros w; [split; reflexivity |].
  cbn [fold_left].
  destruct (IH (if String.eqb (fst kv) "angle" then rotate r (snd kv) w
                else set r (fst kv) (snd kv) w)) as (Hs & Ho).
  split.
  - rewrite Hs. destruct (String.eqb (fst kv) "angle"); cbn;
      apply alter_keeps_src.
  - intros j Hj. rewrite (Ho j Hj).
    destruct (String.eqb (fst kv) "angle"); cbn;
      apply list_lookup_alter_ne; intros E; apply Hj; symmetry; exact E.
Qed.

Lemma optionsSync_keeps (opts : list (string * value)) (w : World) :
  store (optionsSync opts w) = store w /\
  backgroundImageRef (optionsSync opts w) = backgroundImageRef w /\
  img_src <$> heap (optionsSync opts w) = img_src <$> heap w /\
  (forall j, backgroundImageRef w <> Some j ->
             heap (optionsSync opts w) !! j = heap w !! j).
Proof.
  unfold optionsSync.
  destruct (backgroundImageRef w) as [r|] eqn:Href;
    [| repeat split; exact Href].
  destruct (sync_loop r opts w) as (_ & Hs & Hr).
  destruct (sync_loop_heap r opts w) as (Hsrc & Ho).
  destruct (st_canvas (store w)); cbn;
    (split; [exact Hs | split; [rewrite Hr; exact Href | split]];
     [exact Hsrc |
      intros j Hj; apply Ho; intros E; apply Hj; rewrite E; reflexivity]).
Qed.


(** X13.  The options effect only mutates the attached image: the store
    is untouched, the component's reference is the same, every image
    keeps its source (so the attached image and the canvas's background
    are the same images as before), and every other image object is
    unchanged. *)
Theorem optionsSync_frame (opts : list (string * value)) (w : World) :
  let w' := optionsSync opts w in
  store w' = store w /\
  backgroundImageRef w' = backgroundImageRef w /\
  img_src <$> heap w' = img_src <$> heap w /\
  (forall j, backgroundImageRef w <> Some j -> heap w' !! j = heap w !! j) /\
  attached w' = attached w /\
  background w' = background w.
Proof.
  cbv zeta.
  destruct (optionsSync_keeps opts w) as (Hs & Hr & Hsrc & Ho).
  assert (Hl : forall j, img_src <$> heap (optionsSync opts w) !! j
                         = img_src <$> heap w !! j)
    by (intros j; rewrite <- !list_lookup_fmap, Hsrc; reflexivity).
  split; [exact Hs | split; [exact Hr | split; [exact Hsrc |
    split; [exact Ho | split]]]].
  - unfold attached. rewrite Hr.
    destruct (backgroundImageRef w) as [r|]; cbn; [apply Hl | reflexivity].
  - unfold background. rewrite Hs.
    destruct (st_canvas (store w)) as [canvas|]; [| reflexivity].
    destruct (cv_backgroundImage canvas) as [b|]; cbn; [apply Hl | reflexivity].
Qed.

(** ** The reference never dangles *)

Lemma updateViewport_ref_live (params : Params) (w : World) :
  ref_live w -> ref_live (updateViewport params w).
Proof.
  destruct (updateViewport_heap_ref params w) as (Hh & Hr).
  unfold ref_live. rewrite Hh, Hr. trivial.
Qed.

Lemma optionsSync_ref_live (opts : list (string * value)) (w : World) :
  ref_live w -> ref_live (optionsSync opts w).
Proof.
  destruct (optionsSync_keeps opts w) as (_ & Hr & Hsrc & _).
  unfold ref_live. rewrite Hr.
  assert (Hlen : length (heap (optionsSync opts w)) = length (heap w))
    by (rewrite <- (length_fmap img_src), Hsrc; apply length_fmap).
  rewrite Hlen. trivial.
Qed.

Lemma srcCleanup_ref_live (w : World) : ref_live (srcCleanup w).
Proof.
  unfold ref_live. rewrite srcCleanup_ref_none. discriminate.
Qed.

Lemma srcEffect_ref_live (p : Props) (c : Comp) :
  ref_live (world c) -> ref_live (world (srcEffect p c)).
Proof.
  unfold srcEffect. destruct (String.eqb (src p) ""); trivial.
Qed.

Lemma thenCallback_ref_live (ld : Load) (decoded : ObjectProps) (w : World) :
  ref_live w -> ref_live (thenCallback ld decoded w).
Proof.
  intros Hw. destruct (ready w) eqn:Hr.
  - unfold ready in Hr.
    destruct (st_canvas (store w)) as [canvas|] eqn:Hcanvas;
      [| discriminate Hr].
    unfold ref_live.
    rewrite (thenCallback_attach_ref ld decoded w canvas Hcanvas Hr).
    rewrite (thenCallback_attach_heap ld decoded w canvas Hcanvas Hr).
    intros r E. injection E as <-. rewrite length_app. cbn. lia.
  - rewrite (thenCallback_not_ready ld decoded w Hr). exact Hw.
Qed.

Lemma step_ref_live (c : Comp) (e : Event) :
  ref_live (world c) -> ref_live (world (step c e)).
Proof.
  intros Hc. destruct e as [p | | i r | s]; cbn.
  - unfold render. destruct (lifecycle c); [| | exact Hc].
    + cbn. apply (srcEffect_ref_live p (on_world _ c)). cbn.
      apply updateViewport_ref_live. exact Hc.
    + cbn. apply optionsSync_ref_live.
      set (c1 := if _ && _ then _ else c).
      assert (H1 : ref_live (world c1))
        by (subst c1; destruct (_ && _);
            [apply srcCleanup_ref_live | exact Hc]).
      set (c2 := if negb (same_deps _ _) then _ else c1).
      assert (H2 : ref_live (world c2))
        by (subst c2; destruct (negb (same_deps _ _));
            [apply updateViewport_ref_live; exact H1 | exact H1]).
      destruct (negb (String.eqb (last_src c) (src p)));
        [apply srcEffect_ref_live; exact H2 | exact H2].
  - unfold unmount. destruct (lifecycle c); try exact Hc.
    cbn. destruct (cleanup c); [apply srcCleanup_ref_live | exact Hc].
  - unfold settle. destruct (pending c !! i) as [[ld|]|]; try exact Hc.
    cbn. destruct r as [decoded|]; [| exact Hc].
    apply (thenCallback_ref_live ld decoded (world c) Hc).
  - exact Hc.
Qed.

(** X14.  Through every sequence of renders, settlements, unmounts and
    outside changes of the store, the component's reference is either
    empty or points at an image object of the heap: it never dangles, so
    the viewport update always finds the image it holds. *)
Theorem reference_never_dangles
  (es : list Event) (s : ReactFabricState) (h : list FabricImage) :
  let w := world (run es (initial s h)) in
  ref_live w /\
  (forall r, backgroundImageRef w = Some r -> is_Some (heap w !! r)).
Proof.
  cbv zeta.
  assert (G : forall c, ref_live (world c) -> ref_live (world (run es c))).
  { induction es as [| e es IH]; intros c Hc; [exact Hc |].
    change (run (e :: es) c) with (run es (step c e)).
    apply IH. apply step_ref_live. exact Hc. }
  assert (H0 : ref_live (world (initial s h)))
    by (unfold ref_live; cbn; discriminate).
  split; [apply G; exact H0 |].
  intros r Hr. apply lookup_lt_is_Some. apply (G _ H0 r Hr).
Qed.

(** ** A load keeps the props it started with *)

(** X15.  A load keeps the props of the render that started it: through
    any later renders, unmounts and other settlements it stays in flight
    with the same [src], options, scale flags and callback, and when it
    is fulfilled over a ready canvas the first thing set on the image is
    those options with [objectCaching] false, and the image attached is
    the one of that [src], whatever [src] the component has by then. *)
Theorem load_keeps_its_props
  (p : Props) (c : Comp) (es : list Event) (decoded : ObjectProps)
  (Hsrc : src p <> "")
  (Hes : forall r, ~ In (Settle (length (pending c)) r) es) :
  let i := length (pending c) in
  let c2 := run es (srcEffect p c) in
  pending c2 !! i =
    Some (Some (mkLoad (src p) (options p) (params_of p) (onLoad p)
                       (st_domNode (store (world c))))) /\
  (ready (world c2) = true ->
     head (calls_since (world c2) (world (settle i (Some decoded) c2)))
       = Some (image_set_object (length (heap (world c2)))
                 (assign "objectCaching" (VBool false) (options p))) /\
     attached (world (settle i (Some decoded) c2)) = Some (src p)).
Proof.
  cbv zeta.
  assert (Hne : String.eqb (src p) "" = false)
    by (apply String.eqb_neq; exact Hsrc).
  assert (Hld : pending (srcEffect p c) !! length (pending c)
                = Some (Some (mkLoad (src p) (options p) (params_of p)
                                (onLoad p) (st_domNode (store (world c)))))).
  { unfold srcEffect. rewrite Hne. cbn. apply list_lookup_middle.
    reflexivity. }
  pose proof (run_pending es _ _ _ Hld Hes) as Hi.
  split; [exact Hi |].
  intros Hr.
  destruct (settle_attached _ _ _ (Some decoded) Hi Hr) as (Ha & _).
  split; [| exact Ha].
  rewrite (settle_pending _ _ _ (Some decoded) Hi).
  unfold ready in Hr.
  destruct (st_canvas (store (world (run es (srcEffect p c)))))
    as [canvas|] eqn:Hcanvas; [| discriminate Hr].
  destruct (thenCallback_attach_trace
              (mkLoad (src p) (options p) (params_of p) (onLoad p)
                      (st_domNode (store (world c))))
              decoded _ canvas Hcanvas Hr)
    as (vp & _ & Htr).
  erewrite calls_since_app
    by (unfold finallyCallback, setLoading; cbn; rewrite Htr;
        rewrite <- app_assoc; reflexivity).
  reflexivity.
Qed.

End SyncFrame.

Lemma load_keeps_its_props_sample :
  pending (run (H := plain_object)
             [Render (mkProps "a.png" false false true [])]
             (srcEffect (Sample.props "a.png")
                (commit (Sample.props "a.png")
                   (initial (Sample.state (Some Sample.canvas)) []))))
    !! 0
  = Some (Some (mkLoad "a.png" [("opacity", VNum 0.5)] Sample.fit true true)).
Proof.
  assert (Hsrc : src (Sample.props "a.png") <> "") by discriminate.
  assert (Hes : forall r,
             ~ In (Settle 0 r) [Render (mkProps "a.png" false false true [])]).
  { intros r [E | []]. discriminate E. }
  destruct (load_keeps_its_props (H := plain_object) (Sample.props "a.png")
              (commit (Sample.props "a.png")
                 (initial (Sample.state (Some Sample.canvas)) []))
              [Render (mkProps "a.png" false false true [])]
              Sample.decoded Hsrc Hes) as (Hp & _).
  exact Hp.
Defined.

(** ** When the viewport effect runs *)

Lemma same_deps_refl (d : float * float * bool * bool) : same_deps d d = true.
Proof.
  destruct d as [[[a b] f] g]. cbn. unfold JS.same.
  assert (L : forall x : float, PrimFloat.Leibniz.eqb x x = true)
    by (intros x; apply FloatAxioms.Leibniz.eqb_spec; reflexivity).
  rewrite !L. destruct f, g; reflexivity.
Qed.

(** X16.  The viewport effect depends on the store's width and height
    and on the two scale flags only.  When other parts of the store
    change (the manual zoom, the centring flag, the canvas) and the
    component renders again with the same [src] and flags, the viewport
    is not recomputed: the render leaves the store exactly as the
    outside change made it, zoom fields included. *)
Theorem viewport_effect_ignores_other_changes `{FabricObject}
  (p : Props) (c : Comp) (s' : ReactFabricState)
  (Hl : lifecycle c = Mounted) (Hsrc : last_src c = src p)
  (Hdeps : last_deps c
           = (st_width s', st_height s', p_scaleToFit p, p_scaleToCover p)) :
  let c' := run [External s'; Render p] c in
  store (world c') = s' /\
  List.filter is_setViewportTransform
    (calls_since (world c) (world c')) = [] /\
  List.filter is_store_write (calls_since (world c) (world c')) = [].
Proof.
  cbv zeta.
  change (run [External s'; Render p] c)
    with (render p (on_world (with_store s') c)).
  remember (on_world (with_store s') c) as c0 eqn:Ec0.
  assert (Htr0 : trace (world c0) = trace (world c))
    by (rewrite Ec0; reflexivity).
  assert (Hst0 : store (world c0) = s') by (rewrite Ec0; reflexivity).
  assert (E : world (render p c0) = optionsSync (options p) (world c0)).
  { unfold render. subst c0. cbn [lifecycle on_world with_world last_src
                                  last_deps cleanup].
    rewrite Hl, Hsrc, String.eqb_refl.
    assert (Hd : deps_of p (on_world (with_store s') c) = last_deps c)
      by (rewrite Hdeps; reflexivity).
    rewrite Hd, same_deps_refl. reflexivity. }
  rewrite E.
  destruct (optionsSync_keeps (options p) (world c0)) as (Hs & _).
  split; [rewrite Hs; exact Hst0 |].
  assert (Ht : exists l,
             trace (optionsSync (options p) (world c0)) = trace (world c) ++ l /\
             (l = [] \/
              exists r, l = map (sync_call r) (options p) \/
                        l = map (sync_call r) (options p)
                              ++ [canvas_requestRenderAll])).
  { unfold optionsSync.
    destruct (backgroundImageRef (world c0)) as [r|];
      [| exists []; split;
         [rewrite Htr0; symmetry; apply app_nil_r | left; reflexivity]].
    destruct (sync_loop r (options p) (world c0)) as (Ht & _ & _).
    destruct (st_canvas (store (world c0))).
    - eexists. split;
        [unfold requestRenderAll; cbn; rewrite Ht, Htr0, <- app_assoc;
         reflexivity |].
      right. exists r. right. reflexivity.
    - eexists. split; [rewrite Ht, Htr0; reflexivity |].
      right. exists r. left. reflexivity. }
  destruct Ht as (l & Ht & Hl').
  erewrite calls_since_app by exact Ht.
  assert (Hm : forall (f : Call -> bool) r,
             (forall kv, f (sync_call r kv) = false) ->
             List.filter f (map (sync_call r) (options p)) = []).
  { intros f r Hf. apply filter_none. apply List.Forall_forall.
    intros x Hx. apply in_map_iff in Hx. destruct Hx as (kv & <- & _).
    apply Hf. }
  assert (Hv : forall r kv, is_setViewportTransform (sync_call r kv) = false)
    by (intros r kv; unfold sync_call;
        destruct (String.eqb (fst kv) "angle"); reflexivity).
  assert (Hw : forall r kv, is_store_write (sync_call r kv) = false)
    by (intros r kv; unfold sync_call;
        destruct (String.eqb (fst kv) "angle"); reflexivity).
  destruct Hl' as [-> | (r & [-> | ->])];
    rewrite ?List.filter_app, ?(Hm _ r (Hv r)), ?(Hm _ r (Hw r));
    split; reflexivity.
Qed.

Lemma viewport_effect_ignores_other_changes_sample :
  st_zoom
    (store (world (run (H := plain_object)
                     [External
                        (mkState 800 600
                           (Some (mkCanvas 800 600 (Some 0)
                                    (Some (Mat 2 0 0 2 0 0)) [] true true
                                    "high"))
                           (Some 5%float) false true false 2 2);
                      Render (Sample.props "b.png")]
                     Sample.mount_a_then_b)))
    = 2%float.
Proof.
  destruct (viewport_effect_ignores_other_changes (H := plain_object)
              (Sample.props "b.png") Sample.mount_a_then_b
              (mkState 800 600
                 (Some (mkCanvas 800 600 (Some 0) (Some (Mat 2 0 0 2 0 0)) []
                          true true "high"))
                 (Some 5%float) false true false 2 2)
              eq_refl eq_refl eq_refl) as (Hs & _).
  rewrite Hs. reflexivity.
Defined.

(** ** Replacing the image, one load at a time *)


Section Replace.

Context `{FabricObject}.


End Replace.

(** ** What holds of every reachable component *)

Section Reachable.

Context `{FabricObject}.

(** A mounted component has a cleanup registered exactly when its
    current [src] is non-empty. *)
Lemma step_cleanup_tracks_src (c : Comp) (e : Event) :
  (lifecycle c = Mounted ->
   cleanup c = negb (String.eqb (last_src c) "")) ->
  lifecycle (step c e) = Mounted ->
  cleanup (step c e) = negb (String.eqb (last_src (step c e)) "").
Proof.
  intros Hc. destruct e as [p | | i r | s]; cbn -[String.eqb].
  - unfold render. destruct (lifecycle c) eqn:Hl.
    + intros _. unfold srcEffect.
      destruct (String.eqb (src p) "") eqn:E; cbn -[String.eqb];
        rewrite E; reflexivity.
    + intros _.
      destruct (String.eqb (last_src c) (src p)) eqn:E; cbn [negb andb].
      * apply String.eqb_eq in E.
        assert (Hk : cleanup
                       (if negb (same_deps (last_deps c) (deps_of p c))
                        then on_world (updateViewport (params_of p)) c
                        else c) = cleanup c)
          by (destruct (negb (same_deps (last_deps c) (deps_of p c)));
              reflexivity).
        cbn -[String.eqb]. rewrite Hk, (Hc eq_refl), E. reflexivity.
      * unfold srcEffect.
        destruct (String.eqb (src p) "") eqn:E2; cbn -[String.eqb];
          rewrite E2; reflexivity.
    + intros Hm. rewrite Hl in Hm. discriminate Hm.
  - unfold unmount. destruct (lifecycle c) eqn:Hl; cbn -[String.eqb].
    + rewrite Hl. discriminate.
    + discriminate.
    + rewrite Hl. discriminate.
  - unfold settle. destruct (pending c !! i) as [[ld|]|]; cbn -[String.eqb];
      exact Hc.
  - exact Hc.
Qed.

Lemma reachable_cleanup (es : list Event) (s : ReactFabricState)
  (h : list FabricImage) :
  lifecycle (run es (initial s h)) = Mounted ->
  cleanup (run es (initial s h))
    = negb (String.eqb (last_src (run es (initial s h))) "").
Proof.
  assert (G : forall c,
             (lifecycle c = Mounted ->
              cleanup c = negb (String.eqb (last_src c) "")) ->
             lifecycle (run es c) = Mounted ->
             cleanup (run es c) = negb (String.eqb (last_src (run es c)) "")).
  { induction es as [| e es IH]; intros c Hc; [exact Hc |].
    change (run (e :: es) c) with (run es (step c e)).
    apply IH. apply step_cleanup_tracks_src. exact Hc. }
  apply G. cbn. discriminate.
Qed.

Lemma reachable_cleanup_registered (es : list Event) (s : ReactFabricState)
  (h : list FabricImage) :
  lifecycle (run es (initial s h)) = Mounted ->
  last_src (run es (initial s h)) <> "" ->
  cleanup (run es (initial s h)) = true.
Proof.
  intros Hl Hs. rewrite (reachable_cleanup es s h Hl).
  apply String.eqb_neq in Hs. rewrite Hs. reflexivity.
Qed.


End Reachable.


(** ** Teardown of a reachable component *)

(** C5, amended.  In every reachable state in which the component is
    mounted with a non-empty [src], an image is attached and a canvas is
    in the store, the teardown calls the canvas's [remove] on the
    attached image, clears the component's reference, and calls
    [renderAll] when the canvas has an element; on a change of [src] it
    runs before the new load begins; on unmount it is all that runs, and
    it writes nothing to the store; after unmount, once no load is in
    flight, the component makes no further call; a load still in flight
    at unmount clears the loading flag when it settles. *)
Theorem teardown_before_load `{FabricObject}
  (s : ReactFabricState) (h : list FabricImage) (es : list Event)
  (r : nat) (canvas : Canvas)
  (Hl : lifecycle (run es (initial s h)) = Mounted)
  (Hsrc : last_src (run es (initial s h)) <> "")
  (Href : backgroundImageRef (world (run es (initial s h))) = Some r)
  (Hcanvas : st_canvas (store (world (run es (initial s h)))) = Some canvas) :
  let c := run es (initial s h) in
  let teardown :=
    canvas_remove r :: (if cv_element canvas then [canvas_renderAll] else []) in
  (calls_since (world c) (srcCleanup (world c)) = teardown /\
   backgroundImageRef (srcCleanup (world c)) = None) /\
  (forall p : Props,
     src p <> last_src c ->
     calls_since (world c) (world (render p c)) =
       teardown ++
       (if String.eqb (src p) "" then []
        else [store_setLoading true; FabricImage_fromURL (src p)]) /\
     backgroundImageRef (world (render p c)) = None) /\
  (world (unmount c) = srcCleanup (world c) /\
   lifecycle (unmount c) = Unmounted /\
   List.filter is_store_write (calls_since (world c) (world (unmount c)))
     = []) /\
  (all_settled c ->
   forall es' : list Event,
     calls_since (world (unmount c)) (world (run es' (unmount c))) = []) /\
  (forall (i : nat) (ld : Load) (result : option ObjectProps),
     pending c !! i = Some (Some ld) ->
     last (calls_since (world (unmount c))
             (world (settle i result (unmount c))))
       = Some (store_setLoading false)).
Proof.
  cbv zeta.
  pose proof (reachable_cleanup_registered es s h Hl Hsrc) as Hcl.
  exact (teardown_registered (run es (initial s h)) r canvas
           Hl Hcl Href Hcanvas).
Qed.

(** The amended C5 on the race sample: unmounting with the image of
    "b.png" attached calls [remove] on it, then [renderAll]. *)
Lemma teardown_before_load_sample :
  calls_since (world Sample.mount_a_then_b)
              (srcCleanup (world Sample.mount_a_then_b))
    = [canvas_remove 0; canvas_renderAll] /\
  world (unmount Sample.mount_a_then_b)
    = srcCleanup (world Sample.mount_a_then_b).
Proof.
  assert (Hsrc : last_src (run (H := plain_object) Scenario.race
                             (initial (Sample.state (Some Sample.canvas)) []))
                 <> "") by discriminate.
  destruct (teardown_before_load (H := plain_object)
              (Sample.state (Some Sample.canvas)) [] Scenario.race 0
              (mkCanvas 800 600 (Some 0) (Some (Mat 2 0 0 2 0 0)) [] true
                        true "high")
              eq_refl Hsrc eq_refl eq_refl)
    as ((Hcalls & _) & _ & (Hun & _) & _).
  split; [exact Hcalls | exact Hun].
Defined.

(** ** The race of two loads, from any reachable state *)




Section RaceAnywhere.

Context `{FabricObject}.





End RaceAnywhere.

